(** * DevCollab: the interaction interceptor of [static/js/main.js]

    The script registers one [DOMContentLoaded] listener on the document.
    When it runs, that listener binds a [submit] listener to every [form]
    element and a [click] listener to every element of class [btn].

    The script is embedded as computations in a small state-and-exception
    monad over a model of the host: the element tree, the heap of function
    objects, the event-listener lists of the DOM standard, the console and
    the default actions the browser performs after a dispatch. *)

From Stdlib Require Import List String Ascii Arith Bool Lia Permutation.
Import ListNotations.

Local Open Scope string_scope.
Local Close Scope list_scope.
Local Open Scope list_scope.
Local Set Warnings "-register-all".

(** ** The document *)

(** An element: local name, [id], class list and element children. *)
Inductive Element : Type :=
| Elem (localName : string) (id : string) (classList : list string)
       (children : list Element).

(** A node is referred to by its position: the child indexes on the way from
    the node up to the root element, innermost first.  [[]] is the root
    element and [i :: r] is child number [i] of node [r]; so the parent of a
    node is the tail of its reference and two references are equal exactly
    when they denote the same node object. *)
Definition NodeRef := list nat.

Fixpoint ref_eqb (a b : NodeRef) : bool :=
  match a, b with
  | [], [] => true
  | x :: a', y :: b' => Nat.eqb x y && ref_eqb a' b'
  | _, _ => false
  end.

(** The two selector shapes the script uses: a type selector ['form'] and a
    class selector ['.btn']. *)
Inductive Selector : Type :=
| TypeSel (name : string)
| ClassSel (cls : string).

Definition parse_selector (s : string) : Selector :=
  match s with
  | String "."%char rest => ClassSel rest
  | _ => TypeSel s
  end.

(* Names are compared exactly, as in a document that is not in quirks
   mode. *)
Definition matches (sel : Selector) (e : Element) : bool :=
  match sel, e with
  | TypeSel n, Elem t _ _ _ => String.eqb t n
  | ClassSel c, Elem _ _ cl _ => existsb (String.eqb c) cl
  end.

(** Matching elements of the subtree rooted at [e] (whose reference is
    [ref]), in tree order: the element itself, then its children's subtrees
    from first to last. *)
Fixpoint select (m : Element -> bool) (ref : NodeRef) (e : Element)
  {struct e} : list NodeRef :=
  match e with
  | Elem _ _ _ kids =>
      (if m e then [ref] else []) ++
      (fix go (i : nat) (l : list Element) {struct l} : list NodeRef :=
         match l with
         | [] => []
         | k :: l' => select m (i :: ref) k ++ go (S i) l'
         end) 0 kids
  end.

Fixpoint select_children (m : Element -> bool) (ref : NodeRef) (i : nat)
  (l : list Element) : list NodeRef :=
  match l with
  | [] => []
  | k :: l' => select m (i :: ref) k ++ select_children m ref (S i) l'
  end.

(** A structural induction principle that reaches the children. *)
Fixpoint Element_rect' (P : Element -> Prop)
  (H : forall t i c kids, Forall P kids -> P (Elem t i c kids))
  (e : Element) {struct e} : P e :=
  match e with
  | Elem t i c kids =>
      H t i c kids
        ((fix all (l : list Element) : Forall P l :=
            match l with
            | [] => Forall_nil P
            | k :: l' => Forall_cons k (Element_rect' P H k) (all l')
            end) kids)
  end.

(** [document.querySelectorAll(s)] as a function of the tree. *)
Definition query (s : string) (d : Element) : list NodeRef :=
  select (matches (parse_selector s)) [] d.

Arguments query : simpl never.

(** A node together with its ancestors, innermost first. *)
Fixpoint inclusive_ancestors (r : NodeRef) : list NodeRef :=
  match r with
  | [] => [[]]
  | _ :: p => r :: inclusive_ancestors p
  end.

(** ** Event targets, listeners, events *)

Inductive Target : Type :=
| Document
| Node (r : NodeRef).

Definition target_eqb (a b : Target) : bool :=
  match a, b with
  | Document, Document => true
  | Node x, Node y => ref_eqb x y
  | _, _ => false
  end.

(** The three function expressions of the script.  [submit_fn] and
    [click_fn] close over the loop variable of their [forEach]. *)
Inductive Code : Type :=
| ready_fn
| submit_fn (form : NodeRef)
| click_fn (button : NodeRef).

(** An entry of an event-listener list.  [callback] is the identity of a
    function object: its index in the heap [functions].  Every registration
    of the script uses the default options, so the capture flag is always
    false and is left out. *)
Record Listener : Type := mkListener {
  on : Target;
  kind : string;
  callback : nat
}.

Record Event : Type := mkEvent {
  ev_type : string;
  ev_target : Target;
  cancelable : bool;
  defaultPrevented : bool
}.

(** A line of the console: the label and the element logged after it. *)
Definition Trace := (string * NodeRef)%type.

(** What the browser does after a dispatch that nobody cancelled. *)
Inductive DefaultAction : Type :=
| Navigate (form : NodeRef)
| Activate (node : NodeRef).

(** What lies beyond the page and the console: the requests sent over the
    network, the files written, the persistent storage of the origin and
    whatever was put before the user's eyes.  The script calls no interface
    that reaches any of them. *)
Record Outside : Type := mkOutside {
  requests : list string;
  files : list string;
  storage : list (string * string);
  shown : list string
}.

Definition quiet : Outside := mkOutside [] [] [] [].

Record World : Type := mkWorld {
  document : Element;
  functions : list Code;
  listeners : list Listener;
  console : list Trace;
  console_throws : bool;
  performed : list DefaultAction;
  reported : list string;
  called : list Code;
  outside : Outside
}.

(** The state a listener runs in: the world and the event object it was
    handed. *)
Record Ctx : Type := mkCtx {
  world : World;
  event : Event
}.

Definition with_world (f : World -> World) (c : Ctx) : Ctx :=
  mkCtx (f (world c)) (event c).

Definition set_functions (fs : list Code) (w : World) : World :=
  mkWorld (document w) fs (listeners w) (console w) (console_throws w)
          (performed w) (reported w) (called w) (outside w).

Definition set_listeners (ls : list Listener) (w : World) : World :=
  mkWorld (document w) (functions w) ls (console w) (console_throws w)
          (performed w) (reported w) (called w) (outside w).

Definition set_console (cs : list Trace) (w : World) : World :=
  mkWorld (document w) (functions w) (listeners w) cs (console_throws w)
          (performed w) (reported w) (called w) (outside w).

Definition set_performed (ps : list DefaultAction) (w : World) : World :=
  mkWorld (document w) (functions w) (listeners w) (console w)
          (console_throws w) ps (reported w) (called w) (outside w).

Definition set_reported (rs : list string) (w : World) : World :=
  mkWorld (document w) (functions w) (listeners w) (console w)
          (console_throws w) (performed w) rs (called w) (outside w).

Definition set_called (cs : list Code) (w : World) : World :=
  mkWorld (document w) (functions w) (listeners w) (console w)
          (console_throws w) (performed w) (reported w) cs (outside w).

(** ** The monad of listener bodies *)

Inductive Completion (A : Type) : Type :=
| Normal (a : A)
| Throw (exn : string).

Arguments Normal {A} a.
Arguments Throw {A} exn.

Definition M (A : Type) : Type := Ctx -> Ctx * Completion A.

Definition ret {A : Type} (a : A) : M A := fun c => (c, Normal a).

(** A throw skips the rest; what was written before it stays written. *)
Definition bind {A B : Type} (m : M A) (k : A -> M B) : M B :=
  fun c =>
    match m c with
    | (c', Normal a) => k a c'
    | (c', Throw e) => (c', Throw e)
    end.

Notation "x <- m ;; k" := (bind m (fun x => k))
  (at level 61, m at next level, right associativity).
Notation "m ;; k" := (bind m (fun _ => k))
  (at level 61, right associativity).

(** [NodeList.prototype.forEach]. *)
Fixpoint forEach {A : Type} (l : list A) (f : A -> M unit) : M unit :=
  match l with
  | [] => ret tt
  | x :: l' => f x ;; forEach l' f
  end.

(** ** Host operations used by the script *)

Definition querySelectorAll (s : string) : M (list NodeRef) :=
  fun c => (c, Normal (query s (document (world c)))).

(** Evaluating a function expression allocates a new function object. *)
Definition function_expr (body : Code) : M nat :=
  fun c =>
    let w := world c in
    (with_world (set_functions (functions w ++ [body])) c,
     Normal (List.length (functions w))).

Definition same_listener (a b : Listener) : bool :=
  target_eqb (on a) (on b) && String.eqb (kind a) (kind b)
  && Nat.eqb (callback a) (callback b).

(** [EventTarget.addEventListener]: the listener is appended unless the list
    already holds one with the same target, type and callback. *)
Definition add_listener (l : Listener) (w : World) : World :=
  if existsb (same_listener l) (listeners w) then w
  else set_listeners (listeners w ++ [l]) w.

Definition addEventListener (t : Target) (ty : string) (f : nat) : M unit :=
  fun c => (with_world (add_listener (mkListener t ty f)) c, Normal tt).

(** [Event.preventDefault]: sets the canceled flag of a cancelable event. *)
Definition preventDefault : M unit :=
  fun c =>
    let e := event c in
    (mkCtx (world c)
           (mkEvent (ev_type e) (ev_target e) (cancelable e)
                    (cancelable e || defaultPrevented e)),
     Normal tt).

(** [console.log(label, element)].  [console_throws] stands for a console
    whose [log] has been replaced by something that throws. *)
Definition console_log (label : string) (r : NodeRef) : M unit :=
  fun c =>
    if console_throws (world c) then (c, Throw "console.log")
    else (with_world (fun w => set_console (console w ++ [(label, r)]) w) c,
          Normal tt).

(** ** The script *)

(** Lines 7-12: the listener bound to a form. *)
Definition submit_listener (form : NodeRef) : M unit :=
  preventDefault ;;
  console_log "Form submitted:" form.

(** Lines 18-20: the listener bound to a marked control. *)
Definition click_listener (button : NodeRef) : M unit :=
  console_log "Button clicked:" button.

(** Lines 5-13: bind a submit listener to every form. *)
Definition bind_forms : M unit :=
  forms <- querySelectorAll "form" ;;
  forEach forms (fun form =>
    f <- function_expr (submit_fn form) ;;
    addEventListener (Node form) "submit" f).

(** Lines 16-21: bind a click listener to every element of class [btn]. *)
Definition bind_buttons : M unit :=
  buttons <- querySelectorAll ".btn" ;;
  forEach buttons (fun button =>
    f <- function_expr (click_fn button) ;;
    addEventListener (Node button) "click" f).

(** Lines 3-22: the [DOMContentLoaded] listener, the registration pass. *)
Definition ready_listener : M unit :=
  bind_forms ;;
  bind_buttons.

(** Calling a function object runs the body of its function expression. *)
Definition call (f : Code) : M unit :=
  match f with
  | ready_fn => ready_listener
  | submit_fn form => submit_listener form
  | click_fn button => click_listener button
  end.

(** Line 3, the top level of the script. *)
Definition main_js : M unit :=
  f <- function_expr ready_fn ;;
  addEventListener Document "DOMContentLoaded" f.

(** ** Dispatch *)

(** The host calls a listener's callback; an exception that escapes it is
    reported and the dispatch goes on. *)
Definition invoke (l : Listener) (c : Ctx) : Ctx :=
  match nth_error (functions (world c)) (callback l) with
  | None => c
  | Some f =>
      match call f (with_world (fun w => set_called (called w ++ [f]) w) c) with
      | (c', Normal _) => c'
      | (c', Throw e) =>
          with_world (fun w => set_reported (reported w ++ [e]) w) c'
      end
  end.

Definition listens (t : Target) (ty : string) (l : Listener) : bool :=
  target_eqb (on l) t && String.eqb (kind l) ty.

(** The listeners of one object on the path: the list is copied before the
    callbacks run, so a listener added meanwhile is not called for this
    event. *)
Definition invoke_at (t : Target) (c : Ctx) : Ctx :=
  fold_left (fun c' l => invoke l c')
            (filter (listens t (ev_type (event c))) (listeners (world c))) c.

(** The three event types in play all bubble: the path runs from the target
    through its ancestors to the document. *)
Definition propagation_path (t : Target) : list Target :=
  match t with
  | Document => [Document]
  | Node r => map Node (inclusive_ancestors r) ++ [Document]
  end.

Definition dispatch (e : Event) (w : World) : Ctx :=
  fold_left (fun c t => invoke_at t c) (propagation_path (ev_target e))
            (mkCtx w e).

(* The host fires submit events at forms.  For a submit event made by a
   script at another node, the navigation recorded here only says that no
   listener cancelled the event. *)
Definition default_action (ty : string) (r : NodeRef) : list DefaultAction :=
  if String.eqb ty "submit" then [Navigate r]
  else if String.eqb ty "click" then [Activate r]
  else [].

(** A user interaction: a cancelable event at a node, followed by the
    default action unless a listener cancelled the event. *)
Definition fire (ty : string) (r : NodeRef) (w : World) : World :=
  let c := dispatch (mkEvent ty (Node r) true false) w in
  if defaultPrevented (event c) then world c
  else set_performed (performed (world c) ++ default_action ty r) (world c).

Inductive Action : Type :=
| Submit (form : NodeRef)
| Click (node : NodeRef).

Definition act (a : Action) (w : World) : World :=
  match a with
  | Submit r => fire "submit" r w
  | Click r => fire "click" r w
  end.

Definition interact (acts : list Action) (w : World) : World :=
  fold_left (fun w' a => act a w') acts w.

(** What the host does during a page's life. *)
Inductive HostStep : Type :=
| LoadScript
| DocumentReady
| WindowLoad
| User (a : Action).

Definition step (s : HostStep) (w : World) : World :=
  match s with
  | LoadScript =>
      world (fst (main_js (mkCtx w (mkEvent "" Document false false))))
  | DocumentReady =>
      world (dispatch (mkEvent "DOMContentLoaded" Document false false) w)
  | WindowLoad => w   (* fired at the window, where nothing listens *)
  | User a => act a w
  end.

Definition run (steps : list HostStep) (w : World) : World :=
  fold_left (fun w' s => step s w') steps w.

(** A freshly parsed page: nothing bound, nothing logged. *)
Definition fresh (d : Element) : World :=
  mkWorld d [] [] [] false [] [] [] quiet.

(** The script is part of the markup, so it is evaluated during parsing and
    the document-ready event follows. *)
Definition page_load (d : Element) : World :=
  run [LoadScript; DocumentReady] (fresh d).

(** The registration pass as a function of the world. *)
Definition registration_pass (w : World) : World :=
  world (fst (ready_listener
                (mkCtx w (mkEvent "DOMContentLoaded" Document false false)))).

(** ** Vocabulary of the statements *)

(** The console lines written between an earlier world and a later one. *)
Definition emitted (w0 w : World) : list Trace :=
  skipn (List.length (console w0)) (console w).

(** Listeners registered on [t] for [ty]. *)
Definition count (t : Target) (ty : string) (w : World) : nat :=
  List.length (filter (listens t ty) (listeners w)).

(** How many listeners of kind [ty] the node [r] carries. *)
Definition bound (ty : string) (r : NodeRef) (w : World) : nat :=
  count (Node r) ty w.

(** Occurrences of a node in a node list. *)
Definition occ (a : NodeRef) (l : list NodeRef) : nat :=
  List.length (filter (fun r => ref_eqb r a) l).

Definition refers (r : NodeRef) (t : Trace) : bool := ref_eqb (snd t) r.

(** Where a function object of the script belongs: the target and the event
    type its function expression is registered for. *)
Definition signature (f : Code) : Target * string :=
  match f with
  | ready_fn => (Document, "DOMContentLoaded")
  | submit_fn r => (Node r, "submit")
  | click_fn r => (Node r, "click")
  end.

(** Every registered callback is a live function object sitting where the
    script puts it. *)
Definition well_bound (w : World) : Prop :=
  forall l, In l (listeners w) ->
    exists f, nth_error (functions w) (callback l) = Some f /\
              (on l, kind l) = signature f.

(** The listeners the binding loop appends for the nodes [rs], the first
    callback being function object number [n]. *)
Fixpoint bindings (ty : string) (n : nat) (rs : list NodeRef) : list Listener :=
  match rs with
  | [] => []
  | r :: rs' => mkListener (Node r) ty n :: bindings ty (S n) rs'
  end.

(** Function objects are numbered by allocation, so a registered callback
    is older than the next object to be allocated. *)
Definition fresh_ids (w : World) : Prop :=
  forall l, In l (listeners w) -> callback l < List.length (functions w).

(** What one binding loop adds to the world: a function object and a
    listener per node. *)
Definition extend (ty : string) (mk : NodeRef -> Code) (rs : list NodeRef)
  (w : World) : World :=
  set_listeners (listeners w ++ bindings ty (List.length (functions w)) rs)
                (set_functions (functions w ++ map mk rs) w).

(** What one run of the registration pass adds to the world. *)
Definition registered (w : World) : World :=
  extend "click" click_fn (query ".btn" (document w))
    (extend "submit" submit_fn (query "form" (document w)) w).

(** ** What a callback does, as a function of the state *)

Definition note_call (f : Code) (w : World) : World :=
  set_called (called w ++ [f]) w.

Definition emit (label : string) (r : NodeRef) (w : World) : World :=
  if console_throws w then set_reported (reported w ++ ["console.log"]) w
  else set_console (console w ++ [(label, r)]) w.

Definition cancel (e : Event) : Event :=
  mkEvent (ev_type e) (ev_target e) (cancelable e)
          (cancelable e || defaultPrevented e).

Definition effect (f : Code) (c : Ctx) : Ctx :=
  match f with
  | ready_fn => with_world (fun w => registered (note_call ready_fn w)) c
  | submit_fn r =>
      mkCtx (emit "Form submitted:" r (note_call f (world c)))
            (cancel (event c))
  | click_fn r =>
      with_world (fun w => emit "Button clicked:" r (note_call f w)) c
  end.

(** The function a listener on [t] for [ty] can only be. *)
Definition code_for (t : Target) (ty : string) : option Code :=
  match t with
  | Document => if String.eqb ty "DOMContentLoaded" then Some ready_fn else None
  | Node r =>
      if String.eqb ty "submit" then Some (submit_fn r)
      else if String.eqb ty "click" then Some (click_fn r)
      else None
  end.

(** The state of a page with document [d] on which [k] copies of the script
    were evaluated and the registration pass ran [m] times. *)
Record Inv (d : Element) (k m : nat) (w : World) : Prop := mkInv {
  inv_doc : document w = d;
  inv_wb : well_bound w;
  inv_ready : forall ty,
    count Document ty w = if String.eqb ty "DOMContentLoaded" then k else 0;
  inv_submit : forall a, count (Node a) "submit" w = m * occ a (query "form" d);
  inv_click : forall a, count (Node a) "click" w = m * occ a (query ".btn" d)
}.

(** The nodes whose listener for [ty] is called when an event of that type
    is dispatched at [r], in calling order. *)
Definition hits (ty : string) (w : World) (r : NodeRef) : list NodeRef :=
  flat_map (fun a => repeat a (count (Node a) ty w)) (inclusive_ancestors r).

(** ** The run of a page, told without the machinery *)

(** Scripts evaluated so far and registration passes run so far. *)
Definition tally_step (s : HostStep) (km : nat * nat) : nat * nat :=
  match s with
  | LoadScript => (S (fst km), snd km)
  | DocumentReady => (fst km, snd km + fst km)
  | _ => km
  end.

Definition tally_from (km : nat * nat) (steps : list HostStep) : nat * nat :=
  fold_left (fun km' s => tally_step s km') steps km.

(** The nodes called for an event at [r] when each node of [marked] holds
    [m] listeners for it. *)
Definition called_nodes (m : nat) (marked : list NodeRef) (r : NodeRef)
  : list NodeRef :=
  flat_map (fun a => repeat a (m * occ a marked)) (inclusive_ancestors r).

Definition step_traces (d : Element) (m : nat) (s : HostStep) : list Trace :=
  match s with
  | User (Submit r) =>
      map (pair "Form submitted:") (called_nodes m (query "form" d) r)
  | User (Click r) =>
      map (pair "Button clicked:") (called_nodes m (query ".btn" d) r)
  | _ => []
  end.

Definition step_defaults (d : Element) (m : nat) (s : HostStep)
  : list DefaultAction :=
  match s with
  | User (Submit r) =>
      match called_nodes m (query "form" d) r with
      | [] => [Navigate r]
      | _ => []
      end
  | User (Click r) => [Activate r]
  | _ => []
  end.

Fixpoint run_traces (d : Element) (km : nat * nat) (steps : list HostStep)
  : list Trace :=
  match steps with
  | [] => []
  | s :: rest =>
      step_traces d (snd km) s ++ run_traces d (tally_step s km) rest
  end.

Fixpoint run_defaults (d : Element) (km : nat * nat) (steps : list HostStep)
  : list DefaultAction :=
  match steps with
  | [] => []
  | s :: rest =>
      step_defaults d (snd km) s ++ run_defaults d (tally_step s km) rest
  end.

Definition is_ready (f : Code) : bool :=
  match f with ready_fn => true | _ => false end.

(** How many times the host has called the registration pass. *)
Definition passes (w : World) : nat :=
  List.length (filter is_ready (called w)).

(** The ancestors proper of a node, innermost first. *)
Definition ancestors (r : NodeRef) : list NodeRef := tl (inclusive_ancestors r).

(** ** Sample documents *)

(** One form with id [login-form]. *)
Definition login_page : Element :=
  Elem "html" "" [] [Elem "body" "" [] [Elem "form" "login-form" [] []]].

(** Three marked controls side by side. *)
Definition three_buttons : Element :=
  Elem "html" "" []
    [Elem "body" "" []
       [Elem "a" "" ["btn"] []; Elem "button" "" ["btn"; "btn-primary"] [];
        Elem "span" "" ["btn"] []]].

(** Three marked controls, the second inside the first. *)
Definition nested_buttons : Element :=
  Elem "html" "" []
    [Elem "body" "" []
       [Elem "div" "" ["btn"] [Elem "span" "" ["btn"] []];
        Elem "a" "" ["btn"] []]].

(** Neither a form nor a marked control. *)
Definition plain_page : Element :=
  Elem "html" "" [] [Elem "body" "" [] [Elem "p" "" ["lead"] []]].

Definition is_load_script (s : HostStep) : bool :=
  match s with LoadScript => true | _ => false end.

(** How many times the script is evaluated in a run. *)
Definition scripts (steps : list HostStep) : nat :=
  List.length (filter is_load_script steps).

(** ** Statements that the code does not meet *)

(** Re-invocation leaves each submit event with a single trace. *)
Definition rebinding_harmless (d : Element) (f : NodeRef) : Prop :=
  let w := registration_pass (page_load d) in
  performed (act (Submit f) w) = performed w /\
  emitted w (act (Submit f) w) = [("Form submitted:", f)].

(** On every page load, the host firing the document-ready event once and
    the script being evaluated once, the registration pass runs exactly
    once. *)
Definition one_shot_per_page_load (d : Element) : Prop :=
  forall pre post,
    scripts (pre ++ post) = 1 ->
    ~ In DocumentReady pre -> ~ In DocumentReady post ->
    passes (run post (step DocumentReady (run pre (fresh d)))) = 1.

(** Clicking the three marked controls of a page one after the other writes
    three lines, one per control, in click order. *)
Definition clicks_in_order (d : Element) : Prop :=
  forall b1 b2 b3, query ".btn" d = [b1; b2; b3] ->
    let w := page_load d in
    emitted w (interact [Click b1; Click b2; Click b3] w) =
    [("Button clicked:", b1); ("Button clicked:", b2); ("Button clicked:", b3)].

(** The default action of a user interaction. *)
Definition default_of (a : Action) : DefaultAction :=
  match a with
  | Submit r => Navigate r
  | Click r => Activate r
  end.

(** Is [r] a form or inside one? *)
Definition under_form (d : Element) (r : NodeRef) : bool :=
  existsb (fun a => existsb (fun f => ref_eqb f a) (query "form" d))
          (inclusive_ancestors r).

(** The default actions the script lets through. *)
Definition survives (d : Element) (a : DefaultAction) : bool :=
  match a with
  | Navigate r => negb (under_form d r)
  | Activate _ => true
  end.

(** The lines the script can write on a page. *)
Definition script_trace (d : Element) (t : Trace) : Prop :=
  (fst t = "Form submitted:" /\ In (snd t) (query "form" d)) \/
  (fst t = "Button clicked:" /\ In (snd t) (query ".btn" d)).

(** The same world with a console whose [log] throws. *)
Definition break_console (w : World) : World :=
  mkWorld (document w) (functions w) (listeners w) (console w) true
          (performed w) (reported w) (called w) (outside w).

(** The same world in other surroundings. *)
Definition set_outside (o : Outside) (w : World) : World :=
  mkWorld (document w) (functions w) (listeners w) (console w)
          (console_throws w) (performed w) (reported w) (called w) o.

(** The login page in a browser that has been in use: lines on the console,
    function objects of other origin, a history of actions and errors, a
    session in storage. *)
Definition used_login_page : World :=
  mkWorld login_page [click_fn [7]; ready_fn] [] [("earlier", [])] false
          [Activate []] ["oops"] [ready_fn]
          (mkOutside ["GET /"] [] [("session", "42")] []).

(** ** Vocabulary of the further properties *)

(** The elements of [marked] on the way from [r] up to the root, innermost
    first. *)
Definition marked_path (marked : list NodeRef) (r : NodeRef) : list NodeRef :=
  filter (fun a => existsb (fun b => ref_eqb b a) marked)
         (inclusive_ancestors r).

(** * Properties *)

(** ** Node references *)

Lemma ref_eqb_eq (a b : NodeRef) : ref_eqb a b = true <-> a = b.
Proof.
  revert b; induction a as [|x a IH]; intros [|y b]; simpl;
    try (split; [discriminate | congruence]); try tauto.
  rewrite andb_true_iff, Nat.eqb_eq, IH.
  split; [intros [-> ->]; reflexivity | intros H; injection H; auto].
Qed.

Lemma ref_eqb_refl (a : NodeRef) : ref_eqb a a = true.
Proof. apply ref_eqb_eq; reflexivity. Qed.

Lemma ref_eqb_neq (a b : NodeRef) : a <> b -> ref_eqb a b = false.
Proof.
  intros H; destruct (ref_eqb a b) eqn:E; [|reflexivity].
  apply ref_eqb_eq in E; contradiction.
Qed.

Lemma target_eqb_eq (a b : Target) : target_eqb a b = true <-> a = b.
Proof.
  destruct a as [|x], b as [|y]; simpl; try (split; [discriminate|congruence]);
    try tauto.
  rewrite ref_eqb_eq; split; [congruence | intros H; injection H; auto].
Qed.

Lemma listens_spec (t : Target) (ty : string) (l : Listener) :
  listens t ty l = true <-> on l = t /\ kind l = ty.
Proof.
  unfold listens; rewrite andb_true_iff, target_eqb_eq, String.eqb_eq; tauto.
Qed.

Lemma occ_app (a : NodeRef) (l1 l2 : list NodeRef) :
  occ a (l1 ++ l2) = occ a l1 + occ a l2.
Proof. unfold occ; rewrite filter_app, length_app; reflexivity. Qed.

Lemma occ_notin (a : NodeRef) (l : list NodeRef) : ~ In a l -> occ a l = 0.
Proof.
  unfold occ; induction l as [|x l IH]; simpl; intros H; [reflexivity|].
  rewrite ref_eqb_neq by (intros ->; apply H; left; reflexivity).
  apply IH; intros Hin; apply H; right; exact Hin.
Qed.

Lemma occ_NoDup_in (a : NodeRef) (l : list NodeRef) :
  NoDup l -> In a l -> occ a l = 1.
Proof.
  induction 1 as [|x l Hx Hl IH]; simpl; intros Hin; [contradiction|].
  change (occ a (x :: l)) with (occ a ([x] ++ l)); rewrite occ_app.
  destruct Hin as [->|Hin].
  - rewrite (occ_notin _ _ Hx); unfold occ; simpl; rewrite ref_eqb_refl;
      reflexivity.
  - rewrite (IH Hin); unfold occ; simpl.
    rewrite ref_eqb_neq by (intros ->; contradiction); reflexivity.
Qed.

Lemma occ_pos_in (a : NodeRef) (l : list NodeRef) : 0 < occ a l -> In a l.
Proof.
  intros H; destruct (in_dec (list_eq_dec Nat.eq_dec) a l) as [Hin|Hn];
    [exact Hin|].
  rewrite (occ_notin _ _ Hn) in H; lia.
Qed.

(** ** Element discovery *)

Lemma select_unfold (m : Element -> bool) (ref : NodeRef) t i c kids :
  select m ref (Elem t i c kids) =
  (if m (Elem t i c kids) then [ref] else []) ++ select_children m ref 0 kids.
Proof.
  simpl; f_equal; generalize 0.
  induction kids as [|k kids IH]; intros n; simpl; [reflexivity|].
  rewrite IH; reflexivity.
Qed.

Lemma select_suffix (m : Element -> bool) (e : Element) :
  forall ref r, In r (select m ref e) -> exists q, r = q ++ ref.
Proof.
  induction e as [t i c kids IH] using Element_rect'; intros ref r.
  rewrite select_unfold, in_app_iff; intros [Hr|Hr].
  - destruct (m _); simpl in Hr; [|contradiction].
    destruct Hr as [<-|[]]; exists []; reflexivity.
  - revert Hr; generalize 0; induction IH as [|k kids Hk _ IHk];
      intros n; simpl; [contradiction|].
    rewrite in_app_iff; intros [Hr|Hr]; [|eauto].
    destruct (Hk _ _ Hr) as [q ->]; exists (q ++ [n]).
    rewrite <- app_assoc; reflexivity.
Qed.

Lemma select_children_suffix (m : Element -> bool) (ref : NodeRef) kids :
  forall n r, In r (select_children m ref n kids) ->
    exists q j, r = q ++ j :: ref /\ n <= j.
Proof.
  induction kids as [|k kids IH]; intros n r; simpl; [contradiction|].
  rewrite in_app_iff; intros [Hr|Hr].
  - destruct (select_suffix _ _ _ _ Hr) as [q ->]; exists q, n; auto.
  - destruct (IH _ _ Hr) as (q & j & -> & Hj); exists q, j; split; [auto|lia].
Qed.

Lemma suffix_index_inj (q q' : NodeRef) (i j : nat) (ref : NodeRef) :
  q ++ i :: ref = q' ++ j :: ref -> i = j.
Proof.
  intros H.
  change (q ++ [i] ++ ref = q' ++ [j] ++ ref) in H.
  rewrite !app_assoc in H; apply app_inv_tail in H.
  apply app_inj_tail in H; tauto.
Qed.

Lemma select_NoDup (m : Element -> bool) (e : Element) :
  forall ref, NoDup (select m ref e).
Proof.
  induction e as [t i c kids IH] using Element_rect'; intros ref.
  rewrite select_unfold.
  assert (Hk : forall n, NoDup (select_children m ref n kids)).
  { induction IH as [|k kids Hk _ IHk]; intros n; simpl; [constructor|].
    apply NoDup_app; [apply Hk | apply IHk |].
    intros r Hr Hr'.
    destruct (select_suffix _ _ _ _ Hr) as [q ->].
    destruct (select_children_suffix _ _ _ _ _ Hr') as (q' & j & E & Hj).
    apply suffix_index_inj in E; lia. }
  destruct (m _); simpl; [|apply Hk].
  constructor; [|apply Hk].
  intros Hr; destruct (select_children_suffix _ _ _ _ _ Hr) as (q & j & E & _).
  apply (f_equal (@List.length nat)) in E.
  rewrite length_app in E; simpl in E; lia.
Qed.

Lemma query_NoDup (s : string) (d : Element) : NoDup (query s d).
Proof. apply select_NoDup. Qed.

(** ** The binding loops *)

Lemma well_bound_fresh_ids (w : World) : well_bound w -> fresh_ids w.
Proof.
  intros H l Hl; destruct (H l Hl) as (f & Hf & _).
  apply nth_error_Some; congruence.
Qed.

Lemma add_listener_fresh (l : Listener) (w : World) :
  (forall l', In l' (listeners w) -> callback l' <> callback l) ->
  add_listener l w = set_listeners (listeners w ++ [l]) w.
Proof.
  intros H; unfold add_listener.
  destruct (existsb (same_listener l) (listeners w)) eqn:E; [|reflexivity].
  apply existsb_exists in E; destruct E as (l' & Hl' & E).
  unfold same_listener in E; rewrite !andb_true_iff, Nat.eqb_eq in E.
  exfalso; apply (H l' Hl'); symmetry; tauto.
Qed.

Lemma bind_one (ty : string) (mk : NodeRef -> Code) (r : NodeRef) (c : Ctx) :
  fresh_ids (world c) ->
  (f <- function_expr (mk r) ;; addEventListener (Node r) ty f) c =
  (with_world (fun w =>
     set_listeners
       (listeners w ++ [mkListener (Node r) ty (List.length (functions w))])
       (set_functions (functions w ++ [mk r]) w)) c,
   Normal tt).
Proof.
  destruct c as [[d fs ls cs ct pf rp cl en] e]; intros Hf.
  unfold bind, function_expr, addEventListener, with_world; cbn.
  rewrite add_listener_fresh; [reflexivity|].
  intros l' Hl'; cbn in *; specialize (Hf l' Hl'); cbn in Hf; lia.
Qed.

Lemma bind_loop (ty : string) (mk : NodeRef -> Code) (rs : list NodeRef) :
  forall c, fresh_ids (world c) ->
    forEach rs (fun r =>
      f <- function_expr (mk r) ;; addEventListener (Node r) ty f) c =
    (with_world (extend ty mk rs) c, Normal tt).
Proof.
  induction rs as [|r rs IH]; intros c Hf.
  - destruct c as [[d fs ls cs ct pf rp cl en] e].
    simpl; unfold ret, with_world, extend, set_listeners, set_functions; simpl.
    rewrite !app_nil_r; reflexivity.
  - cbn [forEach]; unfold bind at 1; cbv beta.
    rewrite (bind_one ty mk r c Hf), IH.
    + destruct c as [[d fs ls cs ct pf rp cl en] e].
      unfold with_world, extend, set_listeners, set_functions; cbn.
      rewrite <- !app_assoc, length_app, Nat.add_1_r; reflexivity.
    + destruct c as [[d fs ls cs ct pf rp cl en] e].
      intros l; cbn; rewrite in_app_iff, length_app; cbn.
      intros [Hl|[<-|[]]]; [specialize (Hf l Hl); cbn in Hf; lia | cbn; lia].
Qed.

Lemma bindings_in (ty : string) (rs : list NodeRef) :
  forall n l, In l (bindings ty n rs) ->
    exists j r, nth_error rs j = Some r /\ l = mkListener (Node r) ty (n + j).
Proof.
  induction rs as [|r rs IH]; intros n l; cbn; [contradiction|].
  intros [<-|Hl].
  - exists 0, r; rewrite Nat.add_0_r; auto.
  - destruct (IH _ _ Hl) as (j & r' & Hj & ->).
    exists (S j), r'; rewrite Nat.add_succ_r; auto.
Qed.

Lemma fresh_ids_extend (ty : string) (mk : NodeRef -> Code) rs (w : World) :
  fresh_ids w -> fresh_ids (extend ty mk rs w).
Proof.
  intros Hf l; unfold fresh_ids, extend, set_listeners, set_functions; cbn.
  rewrite in_app_iff, length_app, length_map; intros [Hl|Hl].
  - specialize (Hf l Hl); lia.
  - destruct (bindings_in _ _ _ _ Hl) as (j & r & Hj & ->); cbn.
    assert (j < List.length rs) by (apply nth_error_Some; congruence); lia.
Qed.

Lemma ready_listener_spec (c : Ctx) :
  fresh_ids (world c) ->
  ready_listener c = (with_world registered c, Normal tt).
Proof.
  intros Hf; unfold ready_listener, bind_forms, bind_buttons.
  unfold bind at 1, bind at 1, querySelectorAll at 1.
  rewrite (bind_loop _ _ _ c Hf).
  unfold bind at 1, querySelectorAll.
  rewrite bind_loop.
  - reflexivity.
  - apply fresh_ids_extend, Hf.
Qed.

(** ** Callbacks *)

Lemma invoke_effect (l : Listener) (f : Code) (c : Ctx) :
  fresh_ids (world c) ->
  nth_error (functions (world c)) (callback l) = Some f ->
  invoke l c = effect f c.
Proof.
  intros Hf Hl; unfold invoke; rewrite Hl.
  destruct f as [|r|r]; cbn [call effect].
  - rewrite ready_listener_spec; [reflexivity|].
    destruct c as [[d fs ls cs ct pf rp cl en] e]; exact Hf.
  - destruct c as [[d fs ls cs ct pf rp cl en] e].
    unfold submit_listener, bind, preventDefault, console_log, emit; cbn.
    destruct ct; reflexivity.
  - destruct c as [[d fs ls cs ct pf rp cl en] e].
    unfold click_listener, console_log, emit; cbn.
    destruct ct; reflexivity.
Qed.

Lemma code_for_signature (f : Code) (t : Target) (ty : string) :
  signature f = (t, ty) -> code_for t ty = Some f.
Proof.
  destruct f; cbn; intros H; injection H as <- <-; reflexivity.
Qed.

Lemma snapshot_resolves (w : World) (t : Target) (ty : string) (l : Listener) :
  well_bound w -> In l (filter (listens t ty) (listeners w)) ->
  exists f, code_for t ty = Some f /\
            nth_error (functions w) (callback l) = Some f.
Proof.
  intros Hw Hl; apply filter_In in Hl; destruct Hl as [Hl Ht].
  apply listens_spec in Ht; destruct Ht as [<- <-].
  destruct (Hw l Hl) as (f & Hf & Hs).
  exists f; split; [apply code_for_signature; symmetry; exact Hs | exact Hf].
Qed.

Lemma effect_functions (f : Code) (c : Ctx) :
  exists extra, functions (world (effect f c)) = functions (world c) ++ extra.
Proof.
  destruct c as [[d fs ls cs ct pf rp cl en] e]; destruct f as [|r|r]; cbn.
  - eexists; unfold registered, extend; cbn; rewrite <- app_assoc; reflexivity.
  - exists []; unfold emit; cbn; destruct ct; cbn; rewrite app_nil_r;
      reflexivity.
  - exists []; unfold emit; cbn; destruct ct; cbn; rewrite app_nil_r;
      reflexivity.
Qed.

Lemma emit_note_listeners label r f (w : World) :
  listeners (emit label r (note_call f w)) = listeners w /\
  functions (emit label r (note_call f w)) = functions w /\
  document (emit label r (note_call f w)) = document w /\
  console_throws (emit label r (note_call f w)) = console_throws w /\
  performed (emit label r (note_call f w)) = performed w.
Proof.
  destruct w as [d fs ls cs ct pf rp cl en]; unfold emit; cbn.
  destruct ct; cbn; auto.
Qed.

Lemma effect_fresh_ids (f : Code) (c : Ctx) :
  fresh_ids (world c) -> fresh_ids (world (effect f c)).
Proof.
  destruct f as [|r|r]; cbn [effect with_world world]; intros Hf.
  - unfold registered; apply fresh_ids_extend, fresh_ids_extend.
    destruct c as [[d fs ls cs ct pf rp cl en] e]; exact Hf.
  - destruct (emit_note_listeners "Form submitted:" r (submit_fn r) (world c))
      as (Hl & Hfs & _).
    unfold fresh_ids; rewrite Hl, Hfs; exact Hf.
  - destruct (emit_note_listeners "Button clicked:" r (click_fn r) (world c))
      as (Hl & Hfs & _).
    unfold fresh_ids; rewrite Hl, Hfs; exact Hf.
Qed.

Lemma iter_shift {A : Type} (g : A -> A) (n : nat) (x : A) :
  Nat.iter n g (g x) = Nat.iter (S n) g x.
Proof.
  induction n as [|n IH]; [reflexivity|].
  change (g (Nat.iter n g (g x)) = g (Nat.iter (S n) g x)).
  f_equal; exact IH.
Qed.

(** Calling in turn listeners that all hold the function [f] applies the
    effect of [f] once per listener. *)
Lemma fold_invoke (f : Code) (ls : list Listener) :
  forall c, fresh_ids (world c) ->
    (forall l, In l ls ->
       nth_error (functions (world c)) (callback l) = Some f) ->
    fold_left (fun c' l => invoke l c') ls c =
    Nat.iter (List.length ls) (effect f) c.
Proof.
  induction ls as [|l ls IH]; intros c Hf Hls; [reflexivity|].
  cbn [fold_left List.length].
  rewrite (invoke_effect l f c Hf (Hls l (or_introl eq_refl))).
  rewrite IH; [apply iter_shift | apply effect_fresh_ids, Hf |].
  intros l' Hl'; destruct (effect_functions f c) as [extra ->].
  rewrite nth_error_app1; [apply Hls; right; exact Hl'|].
  apply nth_error_Some; rewrite (Hls l' (or_intror Hl')); discriminate.
Qed.

Lemma invoke_at_spec (t : Target) (c : Ctx) :
  well_bound (world c) ->
  invoke_at t c =
  match code_for t (ev_type (event c)) with
  | Some f => Nat.iter (count t (ev_type (event c)) (world c)) (effect f) c
  | None => c
  end.
Proof.
  intros Hw; unfold invoke_at, count.
  destruct (filter (listens t (ev_type (event c))) (listeners (world c)))
    as [|l ls] eqn:E.
  - cbn; destruct (code_for _ _); reflexivity.
  - assert (Hl : In l (filter (listens t (ev_type (event c)))
                              (listeners (world c))))
      by (rewrite E; left; reflexivity).
    destruct (snapshot_resolves _ _ _ _ Hw Hl) as (f & Hcf & _).
    rewrite Hcf; apply fold_invoke; [apply well_bound_fresh_ids, Hw|].
    intros l' Hl'; rewrite <- E in Hl'.
    destruct (snapshot_resolves _ _ _ _ Hw Hl') as (f' & Hc & Hn).
    congruence.
Qed.

(** ** The state of a page *)

Lemma bindings_count (t : Target) (ty' ty : string) (rs : list NodeRef) :
  forall n,
    List.length (filter (listens t ty') (bindings ty n rs)) =
    match t with
    | Document => 0
    | Node a => if String.eqb ty ty' then occ a rs else 0
    end.
Proof.
  induction rs as [|r rs IH]; intros n.
  - destruct t; [|destruct (String.eqb ty ty')]; reflexivity.
  - cbn [bindings filter]; unfold listens at 1; cbn [on kind].
    destruct t as [|a]; cbn [target_eqb]; [apply IH|].
    unfold occ; cbn [filter].
    specialize (IH (S n)).
    destruct (ref_eqb r a), (String.eqb ty ty'); cbn [andb List.length];
      rewrite IH; reflexivity.
Qed.

Lemma count_extend (t : Target) (ty' ty : string) mk rs (w : World) :
  count t ty' (extend ty mk rs w) =
  count t ty' w +
  match t with
  | Document => 0
  | Node a => if String.eqb ty ty' then occ a rs else 0
  end.
Proof.
  unfold count, extend, set_listeners; cbn.
  rewrite filter_app, length_app, bindings_count; reflexivity.
Qed.

Lemma extend_well_bound (ty : string) (mk : NodeRef -> Code) rs (w : World) :
  (forall r, signature (mk r) = (Node r, ty)) ->
  well_bound w -> well_bound (extend ty mk rs w).
Proof.
  intros Hs Hw l; unfold extend, set_listeners, set_functions; cbn.
  rewrite in_app_iff; intros [Hl|Hl].
  - destruct (Hw l Hl) as (f & Hf & Hsig); exists f; split; [|exact Hsig].
    rewrite nth_error_app1; [exact Hf|].
    apply nth_error_Some; congruence.
  - destruct (bindings_in _ _ _ _ Hl) as (j & r & Hj & ->); cbn.
    exists (mk r); split; [|symmetry; apply Hs].
    rewrite nth_error_app2 by lia.
    replace (List.length (functions w) + j - List.length (functions w))
      with j by lia.
    apply map_nth_error, Hj.
Qed.

Lemma Inv_blank (w : World) : listeners w = [] -> Inv (document w) 0 0 w.
Proof.
  intros H; split; unfold count, well_bound; rewrite ?H; cbn; auto.
  - contradiction.
  - intros ty; destruct (String.eqb ty _); reflexivity.
Qed.

Lemma Inv_ext (d : Element) (k m : nat) (w w' : World) :
  listeners w' = listeners w -> functions w' = functions w ->
  document w' = document w -> Inv d k m w -> Inv d k m w'.
Proof.
  intros Hl Hf Hd [Id Iw Ir Is Ic]; split; unfold count, well_bound in *;
    rewrite ?Hl, ?Hf, ?Hd; assumption.
Qed.

Lemma Inv_registered (d : Element) (k m : nat) (w : World) :
  Inv d k m w -> Inv d k (S m) (registered w).
Proof.
  intros [Id Iw Ir Is Ic]; unfold registered; rewrite Id; split.
  - exact Id.
  - apply extend_well_bound; [reflexivity|].
    apply extend_well_bound; [reflexivity | exact Iw].
  - intros ty; rewrite !count_extend, Ir; lia.
  - intros a; rewrite !count_extend, Is; cbn; lia.
  - intros a; rewrite !count_extend, Ic; cbn; lia.
Qed.

Lemma main_js_spec (c : Ctx) :
  fresh_ids (world c) ->
  main_js c =
  (with_world (fun w =>
     set_listeners
       (listeners w ++
        [mkListener Document "DOMContentLoaded" (List.length (functions w))])
       (set_functions (functions w ++ [ready_fn]) w)) c,
   Normal tt).
Proof.
  destruct c as [[d fs ls cs ct pf rp cl en] e]; intros Hf.
  unfold main_js, bind, function_expr, addEventListener, with_world; cbn.
  rewrite add_listener_fresh; [reflexivity|].
  intros l' Hl'; cbn in *; specialize (Hf l' Hl'); cbn in Hf; lia.
Qed.

Lemma Inv_load_script (d : Element) (k m : nat) (w : World) :
  Inv d k m w -> Inv d (S k) m (step LoadScript w).
Proof.
  intros [Id Iw Ir Is Ic]; cbn [step].
  rewrite main_js_spec by (apply well_bound_fresh_ids, Iw).
  cbn [fst world with_world]; split.
  - exact Id.
  - intros l; cbn; rewrite in_app_iff; intros [Hl|[<-|[]]]; cbn.
    + destruct (Iw l Hl) as (f & Hf & Hs); exists f; split; [|exact Hs].
      rewrite nth_error_app1; [exact Hf | apply nth_error_Some; congruence].
    + exists ready_fn; split; [|reflexivity].
      rewrite nth_error_app2, Nat.sub_diag by lia; reflexivity.
  - intros ty; unfold count in *; cbn; rewrite filter_app, length_app, Ir.
    cbn [filter]; unfold listens; cbn [on kind target_eqb andb].
    rewrite (String.eqb_sym _ ty).
    destruct (String.eqb ty _); cbn [List.length]; lia.
  - intros a; unfold count in *; cbn; rewrite filter_app, length_app, Is.
    cbn; lia.
  - intros a; unfold count in *; cbn; rewrite filter_app, length_app, Ic.
    cbn; lia.
Qed.

(** ** Dispatch of a user event *)

Lemma effect_user_stable (f : Code) (c : Ctx) :
  f <> ready_fn ->
  listeners (world (effect f c)) = listeners (world c) /\
  functions (world (effect f c)) = functions (world c) /\
  ev_type (event (effect f c)) = ev_type (event c).
Proof.
  destruct c as [[d fs ls cs ct pf rp cl en] e].
  destruct f as [|r|r]; [congruence| |]; intros _; unfold emit; cbn;
    destruct ct; cbn; auto.
Qed.

Lemma iter_user_stable (f : Code) (n : nat) (c : Ctx) :
  f <> ready_fn ->
  listeners (world (Nat.iter n (effect f) c)) = listeners (world c) /\
  functions (world (Nat.iter n (effect f) c)) = functions (world c) /\
  ev_type (event (Nat.iter n (effect f) c)) = ev_type (event c).
Proof.
  intros Hf; induction n as [|n (Hl & Hfs & He)]; [auto|].
  change (Nat.iter (S n) (effect f) c)
    with (effect f (Nat.iter n (effect f) c)).
  destruct (effect_user_stable f (Nat.iter n (effect f) c) Hf)
    as (-> & -> & ->).
  auto.
Qed.

Lemma fold_repeat {A B : Type} (g : B -> A -> A) (b : B) (n : nat) (x : A) :
  fold_left (fun x' b' => g b' x') (repeat b n) x = Nat.iter n (g b) x.
Proof.
  revert x; induction n as [|n IH]; intros x; [reflexivity|].
  cbn [repeat fold_left]; rewrite IH; apply iter_shift.
Qed.

(** On its way up from the target, an event of type [ty] calls, for each
    node of the path, every listener the node holds for [ty]. *)
Lemma bubble_spec (ty : string) (f : NodeRef -> Code) :
  (forall a, code_for (Node a) ty = Some (f a)) ->
  (forall a, f a <> ready_fn) ->
  forall p c, well_bound (world c) -> ev_type (event c) = ty ->
    fold_left (fun c' t => invoke_at t c') (map Node p) c =
    fold_left (fun c' a => effect (f a) c')
      (flat_map (fun a => repeat a (count (Node a) ty (world c))) p) c.
Proof.
  intros Hc Hr; induction p as [|a p IH]; intros c Hw He; [reflexivity|].
  cbn [map fold_left flat_map]; rewrite fold_left_app, fold_repeat.
  rewrite (invoke_at_spec _ _ Hw), He, Hc.
  set (c1 := Nat.iter _ (effect (f a)) c).
  destruct (iter_user_stable (f a) (count (Node a) ty (world c)) c (Hr a))
    as (Hl & Hfs & Hty); fold c1 in Hl, Hfs, Hty.
  rewrite IH.
  - unfold count; rewrite Hl; reflexivity.
  - unfold well_bound; rewrite Hl, Hfs; exact Hw.
  - congruence.
Qed.

Lemma dispatch_user (ty : string) (f : NodeRef -> Code) (r : NodeRef)
  (cb dp : bool) (w : World) :
  (forall a, code_for (Node a) ty = Some (f a)) ->
  (forall a, f a <> ready_fn) ->
  code_for Document ty = None ->
  well_bound w ->
  dispatch (mkEvent ty (Node r) cb dp) w =
  fold_left (fun c a => effect (f a) c) (hits ty w r)
            (mkCtx w (mkEvent ty (Node r) cb dp)).
Proof.
  intros Hc Hr Hd Hw; unfold dispatch, propagation_path; cbn [ev_target].
  rewrite fold_left_app, (bubble_spec ty f Hc Hr) by (auto || reflexivity).
  cbn [fold_left world]; fold (hits ty w r).
  set (c1 := fold_left _ (hits ty w r) _).
  assert (H : listeners (world c1) = listeners w /\
              functions (world c1) = functions w /\
              ev_type (event c1) = ty).
  { unfold c1; generalize (hits ty w r) as hs.
    assert (G : forall hs c,
      listeners (world (fold_left (fun c a => effect (f a) c) hs c)) =
        listeners (world c) /\
      functions (world (fold_left (fun c a => effect (f a) c) hs c)) =
        functions (world c) /\
      ev_type (event (fold_left (fun c a => effect (f a) c) hs c)) =
        ev_type (event c)).
    { induction hs as [|a hs IH]; intros c; [auto|]; cbn [fold_left].
      destruct (IH (effect (f a) c)) as (-> & -> & ->).
      apply effect_user_stable, Hr. }
    intros hs; apply (G hs (mkCtx w (mkEvent ty (Node r) cb dp))). }
  destruct H as (Hl & Hfs & Hty).
  rewrite invoke_at_spec, Hty, Hd; [reflexivity|].
  unfold well_bound; rewrite Hl, Hfs; exact Hw.
Qed.

Lemma cancel_cancel (e : Event) : cancel (cancel e) = cancel e.
Proof.
  destruct e as [ty t cb dp]; unfold cancel; cbn.
  destruct cb, dp; reflexivity.
Qed.

Lemma effect_submit (a : NodeRef) d fs ls cs ct pf rp cl en e :
  effect (submit_fn a) (mkCtx (mkWorld d fs ls cs ct pf rp cl en) e) =
  mkCtx (mkWorld d fs ls
           (cs ++ if ct then [] else [("Form submitted:", a)]) ct pf
           (rp ++ if ct then ["console.log"] else [])
           (cl ++ [submit_fn a]) en)
        (cancel e).
Proof.
  unfold effect, emit, note_call; cbn; destruct ct; cbn;
    rewrite !app_nil_r; reflexivity.
Qed.

Lemma effect_click (a : NodeRef) d fs ls cs ct pf rp cl en e :
  effect (click_fn a) (mkCtx (mkWorld d fs ls cs ct pf rp cl en) e) =
  mkCtx (mkWorld d fs ls
           (cs ++ if ct then [] else [("Button clicked:", a)]) ct pf
           (rp ++ if ct then ["console.log"] else [])
           (cl ++ [click_fn a]) en)
        e.
Proof.
  unfold effect, emit, note_call, with_world; cbn; destruct ct; cbn;
    rewrite !app_nil_r; reflexivity.
Qed.

Lemma fold_submit (hs : list NodeRef) :
  forall d fs ls cs ct pf rp cl en e,
    fold_left (fun c a => effect (submit_fn a) c) hs
              (mkCtx (mkWorld d fs ls cs ct pf rp cl en) e) =
    mkCtx (mkWorld d fs ls
             (cs ++ if ct then [] else map (pair "Form submitted:") hs)
             ct pf
             (rp ++ if ct then repeat "console.log" (List.length hs) else [])
             (cl ++ map submit_fn hs) en)
          (match hs with [] => e | _ => cancel e end).
Proof.
  induction hs as [|a hs IH]; intros d fs ls cs ct pf rp cl en e.
  - cbn; destruct ct; rewrite !app_nil_r; reflexivity.
  - cbn [fold_left]; rewrite effect_submit, IH.
    destruct ct; cbn; rewrite <- !app_assoc; cbn;
      (destruct hs; [reflexivity | rewrite cancel_cancel; reflexivity]).
Qed.

Lemma fold_click (hs : list NodeRef) :
  forall d fs ls cs ct pf rp cl en e,
    fold_left (fun c a => effect (click_fn a) c) hs
              (mkCtx (mkWorld d fs ls cs ct pf rp cl en) e) =
    mkCtx (mkWorld d fs ls
             (cs ++ if ct then [] else map (pair "Button clicked:") hs)
             ct pf
             (rp ++ if ct then repeat "console.log" (List.length hs) else [])
             (cl ++ map click_fn hs) en)
          e.
Proof.
  induction hs as [|a hs IH]; intros d fs ls cs ct pf rp cl en e.
  - cbn; destruct ct; rewrite !app_nil_r; reflexivity.
  - cbn [fold_left]; rewrite effect_click, IH.
    destruct ct; cbn; rewrite <- !app_assoc; reflexivity.
Qed.

Lemma code_for_submit (a : NodeRef) :
  code_for (Node a) "submit" = Some (submit_fn a).
Proof. reflexivity. Qed.

Lemma code_for_click (a : NodeRef) :
  code_for (Node a) "click" = Some (click_fn a).
Proof. reflexivity. Qed.

Lemma act_submit (r : NodeRef) (w : World) :
  well_bound w ->
  act (Submit r) w =
  mkWorld (document w) (functions w) (listeners w)
    (console w ++
     if console_throws w then []
     else map (pair "Form submitted:") (hits "submit" w r))
    (console_throws w)
    (performed w ++
     match hits "submit" w r with [] => [Navigate r] | _ => [] end)
    (reported w ++
     if console_throws w
     then repeat "console.log" (List.length (hits "submit" w r)) else [])
    (called w ++ map submit_fn (hits "submit" w r))
    (outside w).
Proof.
  intros Hw; unfold act, fire.
  rewrite (dispatch_user "submit" submit_fn r true false w code_for_submit)
    by (auto || discriminate).
  destruct w as [d fs ls cs ct pf rp cl en]; rewrite fold_submit.
  cbn [world event document functions listeners console console_throws
       performed reported called].
  destruct (hits "submit" _ r); cbn; [reflexivity|].
  rewrite app_nil_r; reflexivity.
Qed.

Lemma act_click (r : NodeRef) (w : World) :
  well_bound w ->
  act (Click r) w =
  mkWorld (document w) (functions w) (listeners w)
    (console w ++
     if console_throws w then []
     else map (pair "Button clicked:") (hits "click" w r))
    (console_throws w)
    (performed w ++ [Activate r])
    (reported w ++
     if console_throws w
     then repeat "console.log" (List.length (hits "click" w r)) else [])
    (called w ++ map click_fn (hits "click" w r))
    (outside w).
Proof.
  intros Hw; unfold act, fire.
  rewrite (dispatch_user "click" click_fn r true false w code_for_click)
    by (auto || discriminate).
  destruct w as [d fs ls cs ct pf rp cl en]; rewrite fold_click; reflexivity.
Qed.

Lemma hits_Inv (d : Element) (k m : nat) (w : World) (r : NodeRef) :
  Inv d k m w ->
  hits "submit" w r = called_nodes m (query "form" d) r /\
  hits "click" w r = called_nodes m (query ".btn" d) r.
Proof.
  intros [_ _ _ Is Ic]; unfold hits, called_nodes; split;
    apply flat_map_ext; intros a; [rewrite Is | rewrite Ic]; reflexivity.
Qed.

Lemma Inv_act (d : Element) (k m : nat) (a : Action) (w : World) :
  Inv d k m w -> Inv d k m (act a w).
Proof.
  intros I; apply (Inv_ext d k m w); [| | |exact I];
    destruct a; (rewrite act_submit || rewrite act_click);
    try reflexivity; apply I.
Qed.

(** ** Dispatch of the document-ready event *)

Lemma dispatch_ready (w : World) :
  well_bound w ->
  dispatch (mkEvent "DOMContentLoaded" Document false false) w =
  Nat.iter (count Document "DOMContentLoaded" w) (effect ready_fn)
           (mkCtx w (mkEvent "DOMContentLoaded" Document false false)).
Proof.
  intros Hw; unfold dispatch; cbn [ev_target propagation_path fold_left].
  rewrite invoke_at_spec by exact Hw; reflexivity.
Qed.

Lemma iter_ready (n : nat) (c : Ctx) (d : Element) (k m : nat) :
  Inv d k m (world c) ->
  let w' := world (Nat.iter n (effect ready_fn) c) in
  Inv d k (m + n) w' /\
  console w' = console (world c) /\
  console_throws w' = console_throws (world c) /\
  performed w' = performed (world c) /\
  reported w' = reported (world c) /\
  called w' = called (world c) ++ repeat ready_fn n.
Proof.
  intros I; induction n as [|n (I' & Hc & Ht & Hp & Hr & Hcl)]; cbn zeta.
  - cbn; rewrite Nat.add_0_r, app_nil_r; split; [exact I | repeat split].
  - change (Nat.iter (S n) (effect ready_fn) c)
      with (effect ready_fn (Nat.iter n (effect ready_fn) c)).
    cbn zeta in *; set (c' := Nat.iter n (effect ready_fn) c) in *.
    cbn [effect with_world world]; split.
    + rewrite Nat.add_succ_r; apply Inv_registered.
      apply (Inv_ext d k (m + n) (world c')); auto.
    + rewrite <- Hc, <- Ht, <- Hp, <- Hr.
      replace (repeat ready_fn (S n)) with (repeat ready_fn n ++ [ready_fn])
        by (symmetry; apply (repeat_cons n ready_fn)).
      rewrite app_assoc, <- Hcl.
      destruct (world c') as [d' fs ls cs ct pf rp cl en]; cbn; auto.
Qed.

(** ** One step of the host, and a whole run *)

Ltac frame :=
  repeat match goal with |- _ /\ _ => split end;
  rewrite ?app_nil_r; auto; try lia.

Lemma passes_app (w : World) (fs : list Code) (w' : World) :
  called w' = called w ++ fs ->
  passes w' = passes w + List.length (filter is_ready fs).
Proof.
  intros H; unfold passes; rewrite H, filter_app, length_app; reflexivity.
Qed.

Lemma filter_ready_map (mk : NodeRef -> Code) (hs : list NodeRef) :
  (forall a, is_ready (mk a) = false) ->
  filter is_ready (map mk hs) = [].
Proof.
  intros H; induction hs as [|a hs IH]; cbn; [reflexivity|].
  rewrite H; exact IH.
Qed.

Lemma filter_ready_repeat (n : nat) :
  List.length (filter is_ready (repeat ready_fn n)) = n.
Proof.
  induction n as [|n IH]; cbn; [reflexivity | rewrite IH; reflexivity].
Qed.

Lemma step_spec (d : Element) (k m : nat) (s : HostStep) (w : World) :
  Inv d k m w ->
  let w' := step s w in
  Inv d (fst (tally_step s (k, m))) (snd (tally_step s (k, m))) w' /\
  console w' =
    console w ++ (if console_throws w then [] else step_traces d m s) /\
  console_throws w' = console_throws w /\
  performed w' = performed w ++ step_defaults d m s /\
  passes w' = passes w + (snd (tally_step s (k, m)) - m) /\
  (console_throws w = false -> reported w' = reported w).
Proof.
  intros I; destruct s as [| | |[r|r]]; cbn zeta; cbn [tally_step fst snd].
  - split; [apply Inv_load_script, I|].
    cbn [step]; rewrite main_js_spec by (apply well_bound_fresh_ids, I).
    destruct w as [d' fs ls cs ct pf rp cl en]; unfold passes; cbn.
    rewrite ?app_nil_r, Nat.sub_diag, Nat.add_0_r; destruct ct; frame.
  - cbn [step]; rewrite dispatch_ready by apply I.
    rewrite (inv_ready _ _ _ _ I); cbn [String.eqb Ascii.eqb Bool.eqb].
    destruct (iter_ready k
                (mkCtx w (mkEvent "DOMContentLoaded" Document false false))
                d k m I) as (I' & Hc & Ht & Hp & Hr & Hcl).
    cbn [world] in *; split; [exact I'|].
    rewrite Hc, Ht, Hp, Hr, (passes_app _ _ _ Hcl), filter_ready_repeat.
    cbn [step_traces step_defaults].
    replace (m + k - m) with k by lia; destruct (console_throws w); frame.
  - cbn; unfold passes; rewrite Nat.sub_diag, Nat.add_0_r.
    destruct (console_throws w); frame.
  - split; [apply (Inv_act d k m (Submit r)), I|].
    cbn [step]; rewrite act_submit by apply I.
    destruct (hits_Inv d k m w r I) as [-> _].
    unfold passes; cbn.
    rewrite filter_app, filter_ready_map, app_nil_r, Nat.sub_diag, Nat.add_0_r
      by reflexivity.
    frame; intros ->; apply app_nil_r.
  - split; [apply (Inv_act d k m (Click r)), I|].
    cbn [step]; rewrite act_click by apply I.
    destruct (hits_Inv d k m w r I) as [_ ->].
    unfold passes; cbn.
    rewrite filter_app, filter_ready_map, app_nil_r, Nat.sub_diag, Nat.add_0_r
      by reflexivity.
    frame; intros ->; apply app_nil_r.
Qed.

Lemma tally_from_mono (steps : list HostStep) :
  forall k m, m <= snd (tally_from (k, m) steps).
Proof.
  unfold tally_from; induction steps as [|s steps IH]; intros k m; cbn;
    [lia|].
  destruct s; cbn; try apply IH.
  specialize (IH k (m + k)); lia.
Qed.

Lemma run_spec (d : Element) (steps : list HostStep) :
  forall k m w, Inv d k m w ->
    let w' := run steps w in
    Inv d (fst (tally_from (k, m) steps)) (snd (tally_from (k, m) steps)) w' /\
    console w' =
      console w ++
      (if console_throws w then [] else run_traces d (k, m) steps) /\
    console_throws w' = console_throws w /\
    performed w' = performed w ++ run_defaults d (k, m) steps /\
    passes w' = passes w + (snd (tally_from (k, m) steps) - m) /\
    (console_throws w = false -> reported w' = reported w).
Proof.
  induction steps as [|s steps IH]; intros k m w I; cbn zeta.
  - cbn; rewrite Nat.sub_diag, Nat.add_0_r.
    destruct (console_throws w); frame.
  - destruct (step_spec d k m s w I) as (I1 & Hc & Ht & Hp & Hn & Hr).
    cbn zeta in *.
    change (run (s :: steps) w) with (run steps (step s w)).
    change (tally_from (k, m) (s :: steps))
      with (tally_from (tally_step s (k, m)) steps).
    destruct (tally_step s (k, m)) as [k1 m1] eqn:E; cbn [fst snd] in *.
    destruct (IH k1 m1 (step s w) I1) as (I2 & Hc2 & Ht2 & Hp2 & Hn2 & Hr2).
    cbn zeta in *; split; [exact I2|].
    rewrite Hc2, Ht2, Hp2, Hn2, Hc, Ht, Hp, Hn.
    cbn [run_traces run_defaults]; rewrite E; cbn [snd].
    assert (Hm : m <= m1) by
      (replace m1 with (snd (tally_step s (k, m))) by (rewrite E; reflexivity);
       destruct s; cbn; lia).
    pose proof (tally_from_mono steps k1 m1) as Hm'.
    rewrite <- !app_assoc.
    repeat split; try lia.
    + destruct (console_throws w); reflexivity.
    + intros Hf; rewrite Hr2, Hr; congruence.
Qed.

(** ** Pages *)

Lemma Inv_fresh (d : Element) : Inv d 0 0 (fresh d).
Proof. apply (Inv_blank (fresh d)); reflexivity. Qed.

Lemma interact_run (acts : list Action) (w : World) :
  interact acts w = run (map User acts) w.
Proof.
  revert w; induction acts as [|a acts IH]; intros w; [reflexivity|].
  cbn; apply IH.
Qed.

Lemma tally_from_users (acts : list Action) (km : nat * nat) :
  tally_from km (map User acts) = km.
Proof. induction acts as [|a acts IH]; [reflexivity | exact IH]. Qed.

Lemma emitted_app (w w' : World) (l : list Trace) :
  console w' = console w ++ l -> emitted w w' = l.
Proof.
  intros H; unfold emitted; rewrite H.
  rewrite skipn_app, skipn_all, Nat.sub_diag; reflexivity.
Qed.

(** After the page has loaded, and whatever the host does next, the script
    has been evaluated [k >= 1] times and the pass has run [m >= 1] times;
    the console works, and nothing was reported. *)
Lemma loaded_page (d : Element) (steps : list HostStep) :
  exists k m, 1 <= m /\
    Inv d k m (run steps (page_load d)) /\
    console_throws (run steps (page_load d)) = false /\
    reported (run steps (page_load d)) = [].
Proof.
  unfold page_load.
  destruct (run_spec d [LoadScript; DocumentReady] 0 0 (fresh d) (Inv_fresh d))
    as (I & _ & Ht & _ & _ & Hr).
  cbn zeta in *; cbn [tally_from fold_left tally_step fst snd] in I.
  set (w0 := run [LoadScript; DocumentReady] (fresh d)) in *.
  destruct (run_spec d steps 1 (0 + 1) w0 I) as (I' & _ & Ht' & _ & _ & Hr').
  cbn zeta in *.
  exists (fst (tally_from (1, 0 + 1) steps)),
         (snd (tally_from (1, 0 + 1) steps)).
  split; [apply (tally_from_mono steps 1 (0 + 1))|].
  split; [exact I'|]; split; [rewrite Ht', Ht; reflexivity|].
  rewrite Hr', Hr by (rewrite ?Ht; reflexivity); reflexivity.
Qed.

(** With user interactions only, the counts stay at one script and one
    pass. *)
Lemma interacted_page (d : Element) (acts : list Action) :
  Inv d 1 1 (interact acts (page_load d)) /\
  console_throws (interact acts (page_load d)) = false /\
  reported (interact acts (page_load d)) = [].
Proof.
  rewrite interact_run; unfold page_load.
  destruct (run_spec d [LoadScript; DocumentReady] 0 0 (fresh d) (Inv_fresh d))
    as (I & _ & Ht & _ & _ & Hr).
  cbn zeta in *; cbn [tally_from fold_left tally_step fst snd] in I.
  set (w0 := run [LoadScript; DocumentReady] (fresh d)) in *.
  destruct (run_spec d (map User acts) 1 (0 + 1) w0 I)
    as (I' & _ & Ht' & _ & _ & Hr').
  cbn zeta in *; rewrite tally_from_users in I'.
  split; [exact I'|]; split; [rewrite Ht', Ht; reflexivity|].
  rewrite Hr', Hr by (rewrite ?Ht; reflexivity); reflexivity.
Qed.

(** ** Which nodes are called *)

Lemma inclusive_ancestors_cons (r : NodeRef) :
  inclusive_ancestors r = r :: ancestors r.
Proof. destruct r; reflexivity. Qed.

Lemma inclusive_ancestors_length (r a : NodeRef) :
  In a (inclusive_ancestors r) -> List.length a <= List.length r.
Proof.
  induction r as [|x r IH]; cbn.
  - intros [<-|[]]; reflexivity.
  - intros [<-|H]; [reflexivity | specialize (IH H); lia].
Qed.

Lemma ancestors_shorter (r a : NodeRef) :
  In a (ancestors r) -> List.length a < List.length r.
Proof.
  destruct r as [|x r]; cbn; [contradiction|].
  intros H; apply inclusive_ancestors_length in H; lia.
Qed.

Lemma not_own_ancestor (r : NodeRef) : ~ In r (ancestors r).
Proof. intros H; apply ancestors_shorter in H; lia. Qed.

Lemma occ_in_pos (a : NodeRef) (l : list NodeRef) : In a l -> 0 < occ a l.
Proof.
  intros H; destruct (occ a l) eqn:E; [|lia].
  apply in_split in H; destruct H as (l1 & l2 & ->).
  rewrite occ_app in E; unfold occ at 2 in E; cbn in E.
  rewrite ref_eqb_refl in E; cbn in E; lia.
Qed.

Lemma called_nodes_head (m : nat) (marked : list NodeRef) (r : NodeRef) :
  0 < m -> In r marked -> exists rest, called_nodes m marked r = r :: rest.
Proof.
  intros Hm Hr; unfold called_nodes; rewrite inclusive_ancestors_cons.
  cbn [flat_map]; apply occ_in_pos in Hr.
  destruct (m * occ r marked) as [|n] eqn:E; [nia|].
  cbn; eauto.
Qed.

Lemma called_nodes_count (m : nat) (marked : list NodeRef) (r b : NodeRef) :
  occ b (called_nodes m marked r) =
  m * occ b marked * occ b (inclusive_ancestors r).
Proof.
  unfold called_nodes; induction (inclusive_ancestors r) as [|a p IH].
  - cbn; lia.
  - cbn [flat_map]; rewrite occ_app, IH.
    change (a :: p) with ([a] ++ p); rewrite (occ_app b [a] p).
    assert (H : occ b (repeat a (m * occ a marked)) =
                m * occ b marked * occ b [a]).
    { unfold occ at 1 4; cbn [filter].
      destruct (ref_eqb a b) eqn:E.
      - apply ref_eqb_eq in E; subst a.
        generalize (m * occ b marked) as n; intros n.
        induction n as [|n IHn]; cbn; [reflexivity|].
        rewrite ref_eqb_refl; cbn; rewrite IHn; cbn; lia.
      - generalize (m * occ a marked) as n; intros n.
        induction n as [|n IHn]; cbn; [lia|].
        rewrite E, IHn; cbn; lia. }
    rewrite H; lia.
Qed.

Lemma occ_self_ancestors (b : NodeRef) : occ b (inclusive_ancestors b) = 1.
Proof.
  rewrite inclusive_ancestors_cons.
  change (b :: ancestors b) with ([b] ++ ancestors b); rewrite occ_app.
  rewrite (occ_notin b (ancestors b) (not_own_ancestor b)).
  unfold occ; cbn; rewrite ref_eqb_refl; reflexivity.
Qed.

Lemma refers_map (label : string) (b : NodeRef) (hs : list NodeRef) :
  List.length (filter (refers b) (map (pair label) hs)) = occ b hs.
Proof.
  unfold occ, refers; induction hs as [|a hs IH]; cbn; [reflexivity|].
  destruct (ref_eqb a b); cbn; rewrite IH; reflexivity.
Qed.

(** * The claims *)

(** C1.  For every form present in the document when the page loads, the
    registration pass puts on it a submit listener whose function is the
    submit handler of that form; and whatever the host does afterwards, a
    submit event on that form leaves the dispatch with its default
    prevented, triggers no navigation, and writes a console line naming that
    form.  The document is arbitrary, so this holds for any number of forms,
    none included. *)
Theorem submit_is_intercepted (d : Element) (f : NodeRef)
  (steps : list HostStep) :
  In f (query "form" d) ->
  (exists l, In l (listeners (page_load d)) /\
             on l = Node f /\ kind l = "submit" /\
             nth_error (functions (page_load d)) (callback l) =
               Some (submit_fn f)) /\
  let w := run steps (page_load d) in
  defaultPrevented
    (event (dispatch (mkEvent "submit" (Node f) true false) w)) = true /\
  performed (act (Submit f) w) = performed w /\
  In ("Form submitted:", f) (emitted w (act (Submit f) w)).
Proof.
  intros Hf; split.
  - destruct (interacted_page d []) as ([_ Iw _ Is _] & _).
    cbn [interact fold_left] in *.
    specialize (Is f); rewrite (occ_NoDup_in f _ (query_NoDup _ _) Hf) in Is.
    unfold count in Is.
    destruct (filter (listens (Node f) "submit") (listeners (page_load d)))
      as [|l ls] eqn:E; [discriminate|].
    assert (Hl : In l (filter (listens (Node f) "submit")
                              (listeners (page_load d))))
      by (rewrite E; left; reflexivity).
    destruct (snapshot_resolves _ _ _ _ Iw Hl) as (c & Hc & Hn).
    apply filter_In in Hl; destruct Hl as [Hl Hk].
    apply listens_spec in Hk; destruct Hk as [Ht Hk].
    exists l; cbn in Hc; injection Hc as <-; auto.
  - cbn zeta; destruct (loaded_page d steps) as (k & m & Hm & I & Ht & _).
    set (w := run steps (page_load d)) in *.
    destruct (hits_Inv d k m w f I) as [Hh _].
    destruct (called_nodes_head m (query "form" d) f Hm Hf) as [rest Hr].
    rewrite Hr in Hh; split; [|split].
    + rewrite (dispatch_user "submit" submit_fn f true false w code_for_submit)
        by (auto || discriminate || apply I).
      destruct w as [d' fs ls cs ct pf rp cl en]; rewrite fold_submit, Hh.
      reflexivity.
    + rewrite act_submit by apply I; cbn; rewrite Hh; apply app_nil_r.
    + rewrite (emitted_app w _ (map (pair "Form submitted:") (f :: rest))).
      * left; reflexivity.
      * rewrite act_submit by apply I; cbn; rewrite Ht, Hh; reflexivity.
Qed.

(** C1 at the login page: its one form is bound, and submitting it does not
    navigate. *)
Lemma submit_is_intercepted_witness :
  In [0; 0] (query "form" login_page) /\
  performed (act (Submit [0; 0]) (run [] (page_load login_page))) =
  performed (run [] (page_load login_page)).
Proof.
  assert (H : In [0; 0] (query "form" login_page))
    by (vm_compute; left; reflexivity).
  split; [exact H|].
  exact (proj1 (proj2 (proj2 (submit_is_intercepted login_page [0; 0] [] H)))).
Defined.

(** C2.  For every element of class [btn] present when the page loads, and
    after any user interactions, a click on it writes exactly one console
    line referring to that element, the line of its click handler; the event
    is not cancelled and the click's default action is performed. *)
Theorem click_is_logged_once (d : Element) (b : NodeRef)
  (acts : list Action) :
  In b (query ".btn" d) ->
  let w := interact acts (page_load d) in
  List.length (filter (refers b) (emitted w (act (Click b) w))) = 1 /\
  In ("Button clicked:", b) (emitted w (act (Click b) w)) /\
  defaultPrevented
    (event (dispatch (mkEvent "click" (Node b) true false) w)) = false /\
  performed (act (Click b) w) = performed w ++ [Activate b].
Proof.
  intros Hb; cbn zeta; destruct (interacted_page d acts) as (I & Ht & _).
  set (w := interact acts (page_load d)) in *.
  destruct (hits_Inv d 1 1 w b I) as [_ Hh].
  assert (He : emitted w (act (Click b) w) =
               map (pair "Button clicked:")
                   (called_nodes 1 (query ".btn" d) b)).
  { apply emitted_app; rewrite act_click by apply I; cbn.
    rewrite Ht, Hh; reflexivity. }
  rewrite He, refers_map, called_nodes_count, occ_self_ancestors.
  rewrite (occ_NoDup_in b _ (query_NoDup _ _) Hb).
  split; [reflexivity|]; split; [|split].
  - destruct (called_nodes_head 1 (query ".btn" d) b (le_n 1) Hb) as [rest ->].
    left; reflexivity.
  - rewrite (dispatch_user "click" click_fn b true false w code_for_click)
      by (auto || discriminate || apply I).
    destruct w as [d' fs ls cs ct pf rp cl en]; rewrite fold_click; reflexivity.
  - rewrite act_click by apply I; reflexivity.
Qed.

(** C2 at the page with three controls: a click on the second one. *)
Lemma click_is_logged_once_witness :
  In [1; 0] (query ".btn" three_buttons) /\
  performed (act (Click [1; 0]) (interact [] (page_load three_buttons))) =
  performed (interact [] (page_load three_buttons)) ++ [Activate [1; 0]].
Proof.
  assert (H : In [1; 0] (query ".btn" three_buttons))
    by (vm_compute; right; left; reflexivity).
  split; [exact H|].
  exact (proj2 (proj2 (proj2
           (click_is_logged_once three_buttons [1; 0] [] H)))).
Defined.

(** C3.  After one run of the registration pass every form carries exactly
    one submit listener and every marked control exactly one click listener;
    an element that is not a form carries no submit listener, and one that
    is not marked no click listener. *)
Theorem one_binding_each (d : Element) (a : NodeRef) :
  (In a (query "form" d) -> bound "submit" a (page_load d) = 1) /\
  (In a (query ".btn" d) -> bound "click" a (page_load d) = 1) /\
  (~ In a (query "form" d) -> bound "submit" a (page_load d) = 0) /\
  (~ In a (query ".btn" d) -> bound "click" a (page_load d) = 0).
Proof.
  destruct (interacted_page d []) as ([_ _ _ Is Ic] & _).
  cbn [interact fold_left] in *; unfold bound.
  rewrite Is, Ic, !Nat.mul_1_l.
  repeat split; intros H;
    (apply occ_NoDup_in; [apply query_NoDup | exact H]) || (apply occ_notin, H).
Qed.

(** C3 at the login page: its form has one submit listener. *)
Lemma one_binding_each_witness :
  In [0; 0] (query "form" login_page) /\
  bound "submit" [0; 0] (page_load login_page) = 1.
Proof.
  assert (H : In [0; 0] (query "form" login_page))
    by (vm_compute; left; reflexivity).
  split; [exact H|].
  exact (proj1 (one_binding_each login_page [0; 0]) H).
Defined.

(** ** Re-invocation *)

Lemma registration_pass_spec (w : World) :
  well_bound w -> registration_pass w = registered w.
Proof.
  intros Hw; unfold registration_pass.
  rewrite ready_listener_spec by (apply well_bound_fresh_ids, Hw).
  reflexivity.
Qed.

Lemma registered_frame (w : World) :
  console (registered w) = console w /\
  console_throws (registered w) = console_throws w /\
  performed (registered w) = performed w /\
  reported (registered w) = reported w.
Proof. destruct w; cbn; auto. Qed.

Lemma Inv_reinvoked (d : Element) (k m n : nat) (w : World) :
  Inv d k m w ->
  Inv d k (m + n) (Nat.iter n registration_pass w) /\
  console_throws (Nat.iter n registration_pass w) = console_throws w.
Proof.
  intros I; induction n as [|n [IH Ht]].
  - cbn; rewrite Nat.add_0_r; auto.
  - change (Nat.iter (S n) registration_pass w)
      with (registration_pass (Nat.iter n registration_pass w)).
    rewrite registration_pass_spec by apply IH.
    rewrite Nat.add_succ_r; split; [apply Inv_registered, IH|].
    rewrite <- Ht; apply registered_frame.
Qed.

Lemma Inv_interact (d : Element) (k m : nat) (acts : list Action) (w : World) :
  Inv d k m w ->
  Inv d k m (interact acts w) /\
  console_throws (interact acts w) = console_throws w.
Proof.
  intros I; rewrite interact_run.
  destruct (run_spec d (map User acts) k m w I) as (I' & _ & Ht & _).
  cbn zeta in *; rewrite tally_from_users in I'; auto.
Qed.

(** C4, as the code has it.  The pass allocates new function objects each
    time it runs, so no listener is ever recognised as already present:
    after [n] further invocations on a loaded page every form carries
    [n + 1] submit listeners.  A submit event on a form still has its default
    prevented and triggers no navigation, but writes [n + 1] lines naming
    that form: two after one re-invocation. *)
Theorem rebinding_multiplies_traces (d : Element) (f : NodeRef) (n : nat)
  (acts : list Action) :
  In f (query "form" d) ->
  let w := interact acts (Nat.iter n registration_pass (page_load d)) in
  bound "submit" f w = S n /\
  defaultPrevented
    (event (dispatch (mkEvent "submit" (Node f) true false) w)) = true /\
  performed (act (Submit f) w) = performed w /\
  List.length (filter (refers f) (emitted w (act (Submit f) w))) = S n.
Proof.
  intros Hf; cbn zeta.
  destruct (interacted_page d []) as (I0 & Ht0 & _).
  cbn [interact fold_left] in *.
  destruct (Inv_reinvoked d 1 1 n _ I0) as [I1 Ht1].
  destruct (Inv_interact d 1 (1 + n) acts _ I1) as [I Ht].
  set (w := interact acts _) in *.
  assert (Hthrows : console_throws w = false) by congruence.
  destruct (hits_Inv d 1 (1 + n) w f I) as [Hh _].
  destruct (called_nodes_head (1 + n) (query "form" d) f (Nat.lt_0_succ n) Hf)
    as [rest Hr].
  split; [|split; [|split]].
  - unfold bound.
    rewrite (inv_submit _ _ _ _ I), (occ_NoDup_in f _ (query_NoDup _ _) Hf).
    lia.
  - rewrite (dispatch_user "submit" submit_fn f true false w code_for_submit)
      by (auto || discriminate || apply I).
    destruct w as [d' fs ls cs ct pf rp cl en]; rewrite fold_submit, Hh, Hr.
    reflexivity.
  - rewrite act_submit by apply I; cbn; rewrite Hh, Hr; apply app_nil_r.
  - rewrite (emitted_app w _ (map (pair "Form submitted:")
                                  (called_nodes (1 + n) (query "form" d) f))).
    + rewrite refers_map, called_nodes_count, occ_self_ancestors.
      rewrite (occ_NoDup_in f _ (query_NoDup _ _) Hf); lia.
    + rewrite act_submit by apply I; cbn; rewrite Hthrows, Hh; reflexivity.
Qed.

(** C4 at the login page, the pass invoked a second time. *)
Lemma rebinding_multiplies_traces_witness :
  In [0; 0] (query "form" login_page) /\
  bound "submit" [0; 0]
    (interact [] (Nat.iter 1 registration_pass (page_load login_page))) = 2.
Proof.
  assert (H : In [0; 0] (query "form" login_page))
    by (vm_compute; left; reflexivity).
  split; [exact H|].
  exact (proj1 (rebinding_multiplies_traces login_page [0; 0] 1 [] H)).
Defined.

(** C4 as stated fails: on the login page bound twice, one submit event
    writes two lines. *)
Lemma rebinding_not_harmless : ~ rebinding_harmless login_page [0; 0].
Proof. intros [_ H]; vm_compute in H; discriminate H. Qed.

(** ** Empty collections *)

Lemma called_nodes_none (m : nat) (r : NodeRef) : called_nodes m [] r = [].
Proof.
  unfold called_nodes; induction (inclusive_ancestors r) as [|a p IH];
    [reflexivity|].
  cbn [flat_map]; rewrite IH, app_nil_r.
  unfold occ; cbn; rewrite Nat.mul_0_r; reflexivity.
Qed.

(** C5.  With no form in the document the form-binding loop returns
    normally and leaves the state as it was, and so does the button-binding
    loop with no marked control; with neither, the whole pass changes
    nothing.  With no marked control, a click on any element, at any later
    time, writes no console line. *)
Theorem empty_collections_are_noops (d : Element) :
  (query "form" d = [] ->
   forall c, document (world c) = d -> bind_forms c = (c, Normal tt)) /\
  (query ".btn" d = [] ->
   (forall c, document (world c) = d -> bind_buttons c = (c, Normal tt)) /\
   (forall steps n,
      let w := run steps (page_load d) in
      emitted w (act (Click n) w) = [])) /\
  (query "form" d = [] -> query ".btn" d = [] ->
   forall c, document (world c) = d -> ready_listener c = (c, Normal tt)).
Proof.
  assert (F : query "form" d = [] ->
              forall c, document (world c) = d ->
                        bind_forms c = (c, Normal tt)).
  { intros H c Hd; unfold bind_forms, bind, querySelectorAll.
    rewrite Hd, H; reflexivity. }
  assert (B : query ".btn" d = [] ->
              forall c, document (world c) = d ->
                        bind_buttons c = (c, Normal tt)).
  { intros H c Hd; unfold bind_buttons, bind, querySelectorAll.
    rewrite Hd, H; reflexivity. }
  split; [exact F|]; split.
  - intros H; split; [exact (B H)|].
    intros steps n; cbn zeta.
    destruct (loaded_page d steps) as (k & m & _ & I & Ht & _).
    set (w := run steps (page_load d)) in *.
    apply emitted_app; rewrite act_click by apply I; cbn.
    destruct (hits_Inv d k m w n I) as [_ ->].
    rewrite Ht, H, called_nodes_none; reflexivity.
  - intros Hf Hb c Hd; unfold ready_listener, bind at 1.
    rewrite (F Hf c Hd); exact (B Hb c Hd).
Qed.

(** C5 at a page with neither forms nor marked controls. *)
Lemma empty_collections_are_noops_witness :
  query "form" plain_page = [] /\ query ".btn" plain_page = [] /\
  emitted (run [] (page_load plain_page))
          (act (Click [0; 0; 0]) (run [] (page_load plain_page))) = [].
Proof.
  assert (Hf : query "form" plain_page = []) by reflexivity.
  assert (Hb : query ".btn" plain_page = []) by reflexivity.
  split; [exact Hf|]; split; [exact Hb|].
  exact (proj2 (proj1 (proj2 (empty_collections_are_noops plain_page)) Hb)
               [] [0; 0; 0]).
Defined.

(** ** Order of binding and of traces *)

Lemma page_load_listeners (d : Element) :
  listeners (page_load d) =
  mkListener Document "DOMContentLoaded" 0
  :: bindings "submit" 1 (query "form" d)
  ++ bindings "click" (1 + List.length (query "form" d)) (query ".btn" d).
Proof.
  unfold page_load, run; cbn [fold_left].
  pose proof (Inv_load_script d 0 0 (fresh d) (Inv_fresh d)) as I.
  set (w1 := step LoadScript (fresh d)) in *.
  cbn [step]; rewrite dispatch_ready by apply I.
  rewrite (inv_ready _ _ _ _ I).
  cbn [String.eqb Ascii.eqb Bool.eqb Nat.iter nat_rect].
  cbn [effect with_world world]; unfold registered, extend; cbn.
  rewrite length_map; reflexivity.
Qed.

Lemma called_nodes_unnested (marked : list NodeRef) (b : NodeRef) :
  NoDup marked -> In b marked ->
  (forall a, In a (ancestors b) -> ~ In a marked) ->
  called_nodes 1 marked b = [b].
Proof.
  intros Hn Hb Ha; unfold called_nodes; rewrite inclusive_ancestors_cons.
  cbn [flat_map]; rewrite (occ_NoDup_in b marked Hn Hb); cbn [Nat.mul repeat].
  cbn; f_equal.
  induction (ancestors b) as [|a p IH]; [reflexivity|].
  cbn [flat_map]; rewrite IH by (intros a' H; apply Ha; right; exact H).
  rewrite (occ_notin a marked) by (apply Ha; left; reflexivity).
  reflexivity.
Qed.

Lemma unnested_clicks (d : Element) (cs : list NodeRef) :
  (forall b, In b cs ->
     In b (query ".btn" d) /\
     forall a, In a (ancestors b) -> ~ In a (query ".btn" d)) ->
  run_traces d (1, 1) (map User (map Click cs)) =
  map (pair "Button clicked:") cs.
Proof.
  induction cs as [|b cs IH]; intros H; [reflexivity|].
  cbn [map run_traces tally_step step_traces snd].
  destruct (H b (or_introl eq_refl)) as [Hb Ha].
  rewrite (called_nodes_unnested _ b (query_NoDup _ _) Hb Ha).
  rewrite IH by (intros b' Hb'; apply H; right; exact Hb'); reflexivity.
Qed.

Lemma NoDup_traces (label : string) (cs : list NodeRef) :
  NoDup cs -> NoDup (map (pair label) cs).
Proof.
  induction 1 as [|b cs Hb Hn IH]; cbn; constructor; [|exact IH].
  rewrite in_map_iff; intros (b' & E & Hb'); injection E as ->; contradiction.
Qed.

(** C6, as the code has it.  On a page whose three marked controls are not
    nested in one another, clicking each of them, in whatever order, writes
    exactly three pairwise distinct lines, one per control, in click order.
    Listeners are bound in document order: the forms first, then the marked
    controls, each group as [querySelectorAll] lists it. *)
Theorem unnested_clicks_in_order (d : Element) (b1 b2 b3 : NodeRef)
  (cs : list NodeRef) :
  query ".btn" d = [b1; b2; b3] ->
  (forall b a, In b [b1; b2; b3] -> In a (ancestors b) ->
               ~ In a [b1; b2; b3]) ->
  Permutation cs [b1; b2; b3] ->
  let w := page_load d in
  emitted w (interact (map Click cs) w) = map (pair "Button clicked:") cs /\
  NoDup (map (pair "Button clicked:") cs) /\
  listeners w =
    mkListener Document "DOMContentLoaded" 0
    :: bindings "submit" 1 (query "form" d)
    ++ bindings "click" (1 + List.length (query "form" d)) [b1; b2; b3].
Proof.
  intros Hq Hnest Hperm; cbn zeta; split; [|split].
  - destruct (interacted_page d []) as (I & Ht & _).
    cbn [interact fold_left] in *.
    apply emitted_app; rewrite interact_run.
    destruct (run_spec d (map User (map Click cs)) 1 1 _ I) as (_ & Hc & _).
    cbn zeta in Hc; rewrite Hc, Ht, unnested_clicks; [reflexivity|].
    intros b Hb; rewrite Hq.
    assert (Hb' : In b [b1; b2; b3]) by (apply (Permutation_in _ Hperm), Hb).
    split; [exact Hb' | intros a Ha; apply (Hnest b a Hb' Ha)].
  - apply NoDup_traces, (Permutation_NoDup (Permutation_sym Hperm)).
    rewrite <- Hq; apply query_NoDup.
  - rewrite page_load_listeners, Hq; reflexivity.
Qed.

(** C6 at the page with three controls side by side, clicked last to
    first. *)
Lemma unnested_clicks_in_order_witness :
  query ".btn" three_buttons = [[0; 0]; [1; 0]; [2; 0]] /\
  emitted (page_load three_buttons)
          (interact (map Click [[2; 0]; [1; 0]; [0; 0]])
                    (page_load three_buttons)) =
  map (pair "Button clicked:") [[2; 0]; [1; 0]; [0; 0]].
Proof.
  assert (Hq : query ".btn" three_buttons = [[0; 0]; [1; 0]; [2; 0]])
    by reflexivity.
  split; [exact Hq|].
  refine (proj1 (unnested_clicks_in_order three_buttons [0; 0] [1; 0] [2; 0]
                   [[2; 0]; [1; 0]; [0; 0]] Hq _ _)).
  - intros b a Hb Ha Hin; cbn in Hb, Hin.
    destruct Hb as [<-|[<-|[<-|[]]]]; cbn in Ha;
      repeat (destruct Ha as [<-|Ha]; [intuition discriminate|]);
      contradiction.
  - apply Permutation_sym, (Permutation_rev [[0; 0]; [1; 0]; [2; 0]]).
Defined.

(** C6 as stated fails: when the second control sits inside the first, the
    click on it bubbles to the first, whose listener writes a fourth
    line. *)
Lemma nested_clicks_write_more : ~ clicks_in_order nested_buttons.
Proof.
  intros H; specialize (H [0; 0] [0; 0; 0] [1; 0] eq_refl).
  vm_compute in H; discriminate H.
Qed.

(** ** The trigger *)

Lemma tally_before_ready (steps : list HostStep) :
  ~ In DocumentReady steps ->
  forall k m, tally_from (k, m) steps = (k + scripts steps, m).
Proof.
  unfold tally_from, scripts; induction steps as [|s steps IH]; intros H k m.
  - cbn; rewrite Nat.add_0_r; reflexivity.
  - assert (H' : ~ In DocumentReady steps)
      by (intros G; apply H; right; exact G).
    destruct s; cbn [fold_left tally_step fst snd filter is_load_script];
      try (rewrite (IH H'); cbn [List.length]; f_equal; lia).
    exfalso; apply H; left; reflexivity.
Qed.

Lemma quiet_run (d : Element) (k m : nat) (steps : list HostStep) :
  ~ In LoadScript steps -> ~ In DocumentReady steps ->
  forall w, Inv d k m w ->
    listeners (run steps w) = listeners w /\
    functions (run steps w) = functions w.
Proof.
  induction steps as [|s steps IH]; intros Hl Hr w I; [auto|].
  assert (Hl' : ~ In LoadScript steps) by (intros G; apply Hl; right; exact G).
  assert (Hr' : ~ In DocumentReady steps)
    by (intros G; apply Hr; right; exact G).
  change (run (s :: steps) w) with (run steps (step s w)).
  destruct s as [| | |a].
  - exfalso; apply Hl; left; reflexivity.
  - exfalso; apply Hr; left; reflexivity.
  - apply (IH Hl' Hr' w I).
  - cbn [step].
    destruct (IH Hl' Hr' (act a w) (Inv_act d k m a w I)) as [-> ->].
    destruct a; (rewrite act_submit || rewrite act_click); auto; apply I.
Qed.

(** C7, as the code has it.  On a page load, the host firing the
    document-ready event once, the registration pass runs during that event
    once for every evaluation of the script that came before it: exactly
    once when the script was evaluated once before the event, as for a
    script of the markup, and not at all when the script is evaluated only
    afterwards.  Before the event the pass has not run and no element is
    bound; right after it, whether or not the window's load event has
    happened, every form carries that many submit listeners and every
    marked control that many click listeners, and so they do after any
    later interactions, load events and script evaluations: the pass never
    runs again.  When no script is evaluated later either, the listeners
    and the function objects stay exactly as the pass left them. *)
Theorem registration_at_document_ready (d : Element)
  (pre post : list HostStep) (a : NodeRef) :
  ~ In DocumentReady pre ->
  ~ In DocumentReady post ->
  let w0 := run pre (fresh d) in
  let w1 := step DocumentReady w0 in
  let w2 := run post w1 in
  (passes w0 = 0 /\ bound "submit" a w0 = 0 /\ bound "click" a w0 = 0) /\
  (passes w1 = scripts pre /\ passes w2 = scripts pre) /\
  (In a (query "form" d) ->
   bound "submit" a w1 = scripts pre /\ bound "submit" a w2 = scripts pre) /\
  (In a (query ".btn" d) ->
   bound "click" a w1 = scripts pre /\ bound "click" a w2 = scripts pre) /\
  (~ In LoadScript post ->
   listeners w2 = listeners w1 /\ functions w2 = functions w1).
Proof.
  intros Hpre Hpost; cbn zeta.
  destruct (run_spec d pre 0 0 (fresh d) (Inv_fresh d))
    as (I0 & _ & _ & _ & P0 & _).
  cbn zeta in *; rewrite (tally_before_ready pre Hpre) in I0, P0.
  cbn [fst snd Nat.add] in I0, P0; change (passes (fresh d)) with 0 in P0.
  set (k := scripts pre) in *; set (w0 := run pre (fresh d)) in *.
  destruct (step_spec d k 0 DocumentReady w0 I0) as (I1 & _ & _ & _ & P1 & _).
  cbn zeta in *; cbn [tally_step fst snd Nat.add] in I1, P1.
  set (w1 := step DocumentReady w0) in *.
  destruct (run_spec d post k k w1 I1) as (I2 & _ & _ & _ & P2 & _).
  cbn zeta in *; rewrite (tally_before_ready post Hpost) in I2, P2.
  cbn [fst snd] in I2, P2.
  unfold bound.
  rewrite (inv_submit _ _ _ _ I0), (inv_click _ _ _ _ I0),
    (inv_submit _ _ _ _ I1), (inv_click _ _ _ _ I1),
    (inv_submit _ _ _ _ I2), (inv_click _ _ _ _ I2).
  split; [repeat split; lia|]; split; [split; lia|].
  split; [|split].
  - intros H; rewrite (occ_NoDup_in a _ (query_NoDup _ _) H); lia.
  - intros H; rewrite (occ_NoDup_in a _ (query_NoDup _ _) H); lia.
  - intros Hload; apply (quiet_run d k k post Hload Hpost w1 I1).
Qed.

(** C7 on the login page: a click before the page is ready, then the load
    event and a submit after it. *)
Lemma registration_at_document_ready_witness :
  In [0; 0] (query "form" login_page) /\
  bound "submit" [0; 0]
    (run [WindowLoad; User (Submit [0; 0])]
       (step DocumentReady
          (run [LoadScript; User (Click [0])] (fresh login_page)))) =
  scripts [LoadScript; User (Click [0])].
Proof.
  assert (H : In [0; 0] (query "form" login_page))
    by (vm_compute; left; reflexivity).
  split; [exact H|].
  refine (proj2 (proj1 (proj2 (proj2
    (registration_at_document_ready login_page
       [LoadScript; User (Click [0])] [WindowLoad; User (Submit [0; 0])]
       [0; 0] _ _))) H)).
  - cbn; intuition discriminate.
  - cbn; intuition discriminate.
Defined.

(** C7 as stated fails: when the script is evaluated after the
    document-ready event has been fired, the pass does not run at all. *)
Lemma late_script_is_not_one_shot : ~ one_shot_per_page_load login_page.
Proof.
  intros H; specialize (H [] [LoadScript] eq_refl).
  assert (H0 : ~ In DocumentReady []) by (intros []).
  assert (H1 : ~ In DocumentReady [LoadScript])
    by (intros [E|[]]; discriminate E).
  specialize (H H0 H1); vm_compute in H; discriminate H.
Qed.

(** ** The frame *)

Lemma called_nodes_zero (marked : list NodeRef) (r : NodeRef) :
  called_nodes 0 marked r = [].
Proof.
  unfold called_nodes; induction (inclusive_ancestors r) as [|a p IH];
    [reflexivity | exact IH].
Qed.

Lemma called_nodes_marked (m : nat) (marked : list NodeRef) (r a : NodeRef) :
  In a (called_nodes m marked r) -> In a marked.
Proof.
  unfold called_nodes; rewrite in_flat_map; intros (a' & _ & H).
  destruct (m * occ a' marked) as [|n] eqn:E; [contradiction|].
  apply repeat_spec in H; subst a'.
  apply occ_pos_in; nia.
Qed.

Lemma marked_existsb (a : NodeRef) (marked : list NodeRef) :
  existsb (fun f => ref_eqb f a) marked = false <-> occ a marked = 0.
Proof.
  unfold occ; induction marked as [|f l IH]; cbn; [tauto|].
  destruct (ref_eqb f a); cbn; [split; discriminate | exact IH].
Qed.

Lemma called_nodes_nil (marked : list NodeRef) (r : NodeRef) :
  called_nodes 1 marked r = [] <->
  existsb (fun a => existsb (fun f => ref_eqb f a) marked)
          (inclusive_ancestors r) = false.
Proof.
  unfold called_nodes; induction (inclusive_ancestors r) as [|a p IH];
    cbn [flat_map existsb]; [tauto|].
  rewrite orb_false_iff, <- IH, marked_existsb, Nat.mul_1_l.
  split.
  - intros H; apply app_eq_nil in H; destruct H as [H1 H2].
    split; [|exact H2]; destruct (occ a marked); [reflexivity|discriminate].
  - intros [-> ->]; reflexivity.
Qed.

Lemma run_defaults_users (d : Element) (k m : nat) (acts : list Action) :
  run_defaults d (k, m) (map User acts) =
  flat_map (fun a => step_defaults d m (User a)) acts.
Proof.
  induction acts as [|a acts IH]; [reflexivity|].
  cbn [map run_defaults flat_map tally_step snd]; rewrite IH; reflexivity.
Qed.

Lemma run_traces_users (d : Element) (k m : nat) (acts : list Action) :
  run_traces d (k, m) (map User acts) =
  flat_map (fun a => step_traces d m (User a)) acts.
Proof.
  induction acts as [|a acts IH]; [reflexivity|].
  cbn [map run_traces flat_map tally_step snd]; rewrite IH; reflexivity.
Qed.

Lemma page_load_frame (d : Element) :
  Inv d 1 1 (page_load d) /\
  console (page_load d) = [] /\ console_throws (page_load d) = false /\
  performed (page_load d) = [] /\ reported (page_load d) = [].
Proof.
  unfold page_load.
  destruct (run_spec d [LoadScript; DocumentReady] 0 0 (fresh d) (Inv_fresh d))
    as (I & Hc & Ht & Hp & _ & Hr).
  cbn zeta in *; cbn in I; auto 10.
Qed.

Lemma defaults_without_script (d : Element) (acts : list Action) :
  flat_map (fun a => step_defaults d 0 (User a)) acts = map default_of acts.
Proof.
  induction acts as [|a acts IH]; [reflexivity|].
  cbn [flat_map map]; rewrite IH.
  destruct a; cbn [step_defaults default_of]; [|reflexivity].
  rewrite called_nodes_zero; reflexivity.
Qed.

Lemma defaults_with_script (d : Element) (acts : list Action) :
  flat_map (fun a => step_defaults d 1 (User a)) acts =
  filter (survives d) (map default_of acts).
Proof.
  induction acts as [|a acts IH]; [reflexivity|].
  cbn [flat_map map]; rewrite IH.
  change (default_of a :: map default_of acts)
    with ([default_of a] ++ map default_of acts).
  rewrite filter_app; f_equal.
  destruct a as [r|r]; cbn [step_defaults default_of]; [|reflexivity].
  cbn [filter survives]; unfold under_form.
  destruct (called_nodes 1 (query "form" d) r) as [|x xs] eqn:E.
  - apply called_nodes_nil in E; rewrite E; reflexivity.
  - destruct (existsb _ (inclusive_ancestors r)) eqn:E'; [reflexivity|].
    apply called_nodes_nil in E'; congruence.
Qed.

Lemma traces_of_script (d : Element) (m : nat) (acts : list Action) :
  Forall (script_trace d) (flat_map (fun a => step_traces d m (User a)) acts).
Proof.
  apply Forall_forall; intros t Ht.
  apply in_flat_map in Ht; destruct Ht as (a & _ & Ha).
  destruct a as [r|r]; cbn [step_traces] in Ha; apply in_map_iff in Ha;
    destruct Ha as (x & <- & Hx); apply called_nodes_marked in Hx;
    [left | right]; split; auto.
Qed.

Lemma loaded_frame (w0 : World) :
  listeners w0 = [] ->
  let w1 := run [LoadScript; DocumentReady] w0 in
  Inv (document w0) 1 1 w1 /\
  console w1 = console w0 /\
  console_throws w1 = console_throws w0 /\
  performed w1 = performed w0 /\
  (console_throws w0 = false -> reported w1 = reported w0).
Proof.
  intros H; cbn zeta.
  destruct (run_spec _ [LoadScript; DocumentReady] 0 0 w0 (Inv_blank w0 H))
    as (I & Hc & Ht & Hp & _ & Hr).
  cbn zeta in *; cbn [tally_from fold_left tally_step fst snd Nat.add] in I.
  change (run_traces (document w0) (0, 0) [LoadScript; DocumentReady])
    with (@nil Trace) in Hc.
  change (run_defaults (document w0) (0, 0) [LoadScript; DocumentReady])
    with (@nil DefaultAction) in Hp.
  rewrite app_nil_r in Hp.
  destruct (console_throws w0); rewrite app_nil_r in Hc; auto.
Qed.

Lemma iter_ready_outside (n : nat) (c : Ctx) :
  outside (world (Nat.iter n (effect ready_fn) c)) = outside (world c).
Proof.
  induction n as [|n IH]; [reflexivity|].
  change (Nat.iter (S n) (effect ready_fn) c)
    with (effect ready_fn (Nat.iter n (effect ready_fn) c)).
  rewrite <- IH; destruct (Nat.iter n (effect ready_fn) c) as [[] e];
    reflexivity.
Qed.

Lemma run_outside (d : Element) (steps : list HostStep) :
  forall k m w, Inv d k m w -> outside (run steps w) = outside w.
Proof.
  induction steps as [|s steps IH]; intros k m w I; [reflexivity|].
  change (run (s :: steps) w) with (run steps (step s w)).
  destruct (step_spec d k m s w I) as (I1 & _); cbn zeta in I1.
  rewrite (IH _ _ _ I1).
  destruct s as [| | |[r|r]]; cbn [step].
  - rewrite main_js_spec by (apply well_bound_fresh_ids, I).
    destruct w; reflexivity.
  - rewrite dispatch_ready by apply I; apply iter_ready_outside.
  - reflexivity.
  - rewrite act_submit by apply I; reflexivity.
  - rewrite act_click by apply I; reflexivity.
Qed.

(** C8.  Take a page in any surroundings, and compare it with the same page
    and the same user interactions without the script.  The script leaves
    the document as it was, and the surroundings too: no request is sent,
    no file written, nothing stored, nothing shown.  It reports no error.
    It changes the default actions the browser performs only by removing
    the navigations of submit events that reach a form; every click still
    has its default action.  All it writes to the console are its two kinds
    of lines, for forms and for marked controls of the document. *)
Theorem effects_are_framed (d : Element) (o : Outside) (acts : list Action) :
  let start := set_outside o (fresh d) in
  let w := interact acts (run [LoadScript; DocumentReady] start) in
  let w0 := interact acts start in
  document w = d /\
  outside w = o /\
  reported w = [] /\
  performed w0 = map default_of acts /\
  performed w = filter (survives d) (performed w0) /\
  Forall (script_trace d) (console w).
Proof.
  cbn zeta; set (start := set_outside o (fresh d)).
  assert (I0 : Inv d 0 0 start) by (apply (Inv_blank start); reflexivity).
  destruct (loaded_frame start eq_refl) as (I1 & Hc & Ht & Hp & Hr).
  cbn zeta in *; change (document start) with d in I1.
  set (w1 := run [LoadScript; DocumentReady] start) in *.
  rewrite !interact_run.
  destruct (run_spec d (map User acts) 1 1 w1 I1)
    as (I2 & Hc2 & _ & Hp2 & _ & Hr2).
  destruct (run_spec d (map User acts) 0 0 start I0) as (_ & _ & _ & Hp0 & _).
  cbn zeta in *.
  split; [apply I2|].
  split; [rewrite (run_outside d _ 1 1 w1 I1);
          apply (run_outside d _ 0 0 start I0)|].
  split; [rewrite Hr2, Hr by (rewrite ?Ht; reflexivity); reflexivity|].
  rewrite Hc2, Hp2, Hp0, Hc, Hp, Ht, !run_defaults_users, run_traces_users.
  change (performed start) with (@nil DefaultAction).
  change (console start) with (@nil Trace).
  change (console_throws start) with false.
  cbn [app]; rewrite defaults_without_script, defaults_with_script.
  split; [reflexivity|]; split; [reflexivity|].
  apply traces_of_script.
Qed.

(** ** The order inside the submit handler *)

Lemma Inv_break_console (d : Element) (k m : nat) (w : World) :
  Inv d k m w -> Inv d k m (break_console w).
Proof. apply Inv_ext; reflexivity. Qed.

(** C9.  The submit handler sets the event's canceled flag first and logs
    second.  So a cancelable event comes out of the handler with its
    default prevented whether the handler returns or throws; and when
    [console.log] throws, the handler does throw, yet on a loaded page a
    submit event on a form is still dispatched with its default prevented
    and triggers no navigation, while nothing is written and the exception
    is reported. *)
Theorem suppression_precedes_trace (d : Element) (f : NodeRef)
  (acts : list Action) (c : Ctx) :
  In f (query "form" d) ->
  cancelable (event c) = true ->
  defaultPrevented (event (fst (submit_listener f c))) = true /\
  (console_throws (world c) = true ->
   snd (submit_listener f c) = Throw "console.log") /\
  let w := interact acts (break_console (page_load d)) in
  defaultPrevented
    (event (dispatch (mkEvent "submit" (Node f) true false) w)) = true /\
  performed (act (Submit f) w) = performed w /\
  emitted w (act (Submit f) w) = [] /\
  List.length (reported w) < List.length (reported (act (Submit f) w)).
Proof.
  intros Hf Hc; split; [|split].
  - destruct c as [[d' fs ls cs ct pf rp cl en] [ty t cb dp]].
    cbn in Hc; subst cb.
    unfold submit_listener, bind, preventDefault, console_log; cbn.
    destruct ct; reflexivity.
  - destruct c as [[d' fs ls cs ct pf rp cl en] e]; cbn; intros ->; reflexivity.
  - cbn zeta.
    destruct (page_load_frame d) as (I0 & _).
    destruct (Inv_interact d 1 1 acts _ (Inv_break_console d 1 1 _ I0))
      as [I Ht].
    set (w := interact acts _) in *; cbn in Ht.
    destruct (hits_Inv d 1 1 w f I) as [Hh _].
    destruct (called_nodes_head 1 (query "form" d) f (le_n 1) Hf) as [rest Hr].
    rewrite Hr in Hh; split; [|split; [|split]].
    + rewrite (dispatch_user "submit" submit_fn f true false w code_for_submit)
        by (auto || discriminate || apply I).
      destruct w as [d' fs ls cs ct pf rp cl en]; rewrite fold_submit, Hh.
      reflexivity.
    + rewrite act_submit by apply I; cbn; rewrite Hh; apply app_nil_r.
    + apply emitted_app; rewrite act_submit by apply I; cbn.
      rewrite Ht; reflexivity.
    + rewrite act_submit by apply I; cbn.
      rewrite Ht, Hh, length_app; cbn; lia.
Qed.

(** C9 on the login page with a throwing console. *)
Lemma suppression_precedes_trace_witness :
  In [0; 0] (query "form" login_page) /\
  performed (act (Submit [0; 0])
               (interact [] (break_console (page_load login_page)))) =
  performed (interact [] (break_console (page_load login_page))).
Proof.
  assert (H : In [0; 0] (query "form" login_page))
    by (vm_compute; left; reflexivity).
  split; [exact H|].
  exact (proj1 (proj2 (proj2 (proj2
    (suppression_precedes_trace login_page [0; 0] []
       (mkCtx (break_console (page_load login_page))
              (mkEvent "submit" (Node [0; 0]) true false))
       H eq_refl))))).
Defined.

(** ** Determinism *)

(** C10.  Two runs of the same host steps on the same document, started
    from pages on which nothing is bound yet, write the same console lines,
    whatever else differs between the two worlds: what the console already
    holds, which function objects exist, what was performed, reported or
    called before.  (The two consoles must be of the same kind: both
    working or both throwing.) *)
Theorem traces_are_deterministic (w1 w2 : World) (steps : list HostStep) :
  document w1 = document w2 ->
  console_throws w1 = console_throws w2 ->
  listeners w1 = [] ->
  listeners w2 = [] ->
  emitted w1 (run steps w1) = emitted w2 (run steps w2).
Proof.
  intros Hd Ht H1 H2.
  destruct (run_spec _ steps 0 0 w1 (Inv_blank w1 H1)) as (_ & C1 & _).
  destruct (run_spec _ steps 0 0 w2 (Inv_blank w2 H2)) as (_ & C2 & _).
  cbn zeta in *.
  rewrite (emitted_app _ _ _ C1), (emitted_app _ _ _ C2), Hd, Ht; reflexivity.
Qed.

(** C10 on the login page: a fresh world against one with a used console,
    a populated function heap and a history. *)
Lemma traces_are_deterministic_witness :
  emitted (fresh login_page)
    (run [LoadScript; DocumentReady; User (Submit [0; 0])] (fresh login_page)) =
  emitted used_login_page
    (run [LoadScript; DocumentReady; User (Submit [0; 0])] used_login_page).
Proof.
  apply (traces_are_deterministic (fresh login_page) used_login_page
           [LoadScript; DocumentReady; User (Submit [0; 0])]);
    reflexivity.
Defined.

(** * Further properties of the script *)

(** ** What an event reaches *)

Lemma called_nodes_path (marked : list NodeRef) (r : NodeRef) :
  NoDup marked -> called_nodes 1 marked r = marked_path marked r.
Proof.
  intros Hn; unfold called_nodes, marked_path.
  induction (inclusive_ancestors r) as [|a p IH]; [reflexivity|].
  cbn [flat_map filter]; rewrite IH, Nat.mul_1_l.
  destruct (existsb (fun b => ref_eqb b a) marked) eqn:E.
  - assert (Hin : In a marked).
    { apply occ_pos_in; destruct (occ a marked) eqn:O; [|lia].
      apply marked_existsb in O; congruence. }
    rewrite (occ_NoDup_in a marked Hn Hin); reflexivity.
  - apply marked_existsb in E; rewrite E; reflexivity.
Qed.

(** X1.  On a loaded page, after any user interactions, a click at any node,
    marked or not, writes one line for each marked control on the way from
    that node up to the root, innermost first, and nothing else: the line
    names the control the listener was bound to, not the node clicked. *)
Theorem click_names_controls_on_path (d : Element) (acts : list Action)
  (n : NodeRef) :
  let w := interact acts (page_load d) in
  emitted w (act (Click n) w) =
  map (pair "Button clicked:") (marked_path (query ".btn" d) n).
Proof.
  cbn zeta; destruct (interacted_page d acts) as (I & Ht & _).
  set (w := interact acts (page_load d)) in *.
  apply emitted_app; rewrite act_click by apply I; cbn.
  destruct (hits_Inv d 1 1 w n I) as [_ ->].
  rewrite Ht, called_nodes_path by apply query_NoDup; reflexivity.
Qed.


(** X3.  Whatever the host has done since the page was parsed, however many
    copies of the script were evaluated and however often the pass ran, a
    click is never cancelled: its dispatch ends with the default not
    prevented and its default action is performed. *)
Theorem click_is_never_cancelled (d : Element) (steps : list HostStep)
  (n : NodeRef) :
  let w := run steps (fresh d) in
  defaultPrevented
    (event (dispatch (mkEvent "click" (Node n) true false) w)) = false /\
  performed (act (Click n) w) = performed w ++ [Activate n].
Proof.
  cbn zeta.
  destruct (run_spec d steps 0 0 (fresh d) (Inv_fresh d)) as (I & _).
  cbn zeta in I; set (w := run steps (fresh d)) in *; split.
  - rewrite (dispatch_user "click" click_fn n true false w code_for_click)
      by (auto || discriminate || apply I).
    destruct w as [d' fs ls cs ct pf rp cl en]; rewrite fold_click.
    reflexivity.
  - rewrite act_click by apply I; reflexivity.
Qed.

(** ** Scripts, passes and listeners *)

Lemma tally_scripts (steps : list HostStep) :
  forall k m, fst (tally_from (k, m) steps) = k + scripts steps.
Proof.
  unfold tally_from, scripts; induction steps as [|s steps IH]; intros k m;
    cbn [fold_left filter]; [cbn; lia|].
  destruct s; cbn [tally_step fst snd is_load_script List.length];
    rewrite IH; lia.
Qed.

Lemma run_from_fresh (d : Element) (steps : list HostStep) :
  let w := run steps (fresh d) in
  Inv d (scripts steps) (passes w) w /\ console_throws w = false.
Proof.
  cbn zeta.
  destruct (run_spec d steps 0 0 (fresh d) (Inv_fresh d))
    as (I & _ & Ht & _ & P & _).
  cbn zeta in *; rewrite tally_scripts in I.
  change (passes (fresh d)) with 0 in P.
  rewrite Nat.sub_0_r in P; cbn [Nat.add] in I, P; rewrite <- P in I.
  split; [exact I | exact Ht].
Qed.

(** X4.  At every moment of a page's life the listener lists mirror what has
    run: the document carries one [DOMContentLoaded] listener per evaluation
    of the script, every form one submit listener and every marked control
    one click listener per run of the registration pass, and no other
    element carries any. *)
Theorem listeners_mirror_history (d : Element) (steps : list HostStep)
  (a : NodeRef) :
  let w := run steps (fresh d) in
  count Document "DOMContentLoaded" w = scripts steps /\
  (In a (query "form" d) -> bound "submit" a w = passes w) /\
  (In a (query ".btn" d) -> bound "click" a w = passes w) /\
  (~ In a (query "form" d) -> bound "submit" a w = 0) /\
  (~ In a (query ".btn" d) -> bound "click" a w = 0).
Proof.
  cbn zeta; destruct (run_from_fresh d steps) as ([_ _ Ir Is Ic] & _).
  unfold bound; rewrite Ir, Is, Ic.
  split; [reflexivity|]; repeat split; intros H.
  - rewrite (occ_NoDup_in a _ (query_NoDup _ _) H); lia.
  - rewrite (occ_NoDup_in a _ (query_NoDup _ _) H); lia.
  - rewrite (occ_notin a _ H); lia.
  - rewrite (occ_notin a _ H); lia.
Qed.

(** X4 on the login page with the script included twice. *)
Lemma listeners_mirror_history_witness :
  In [0; 0] (query "form" login_page) /\
  bound "submit" [0; 0]
    (run [LoadScript; LoadScript; DocumentReady] (fresh login_page)) =
  passes (run [LoadScript; LoadScript; DocumentReady] (fresh login_page)).
Proof.
  assert (H : In [0; 0] (query "form" login_page))
    by (vm_compute; left; reflexivity).
  split; [exact H|].
  exact (proj1 (proj2
    (listeners_mirror_history login_page
       [LoadScript; LoadScript; DocumentReady] [0; 0])) H).
Defined.


(** X6.  As long as the registration pass has not run, nothing is
    intercepted: the submission of a form ends in a navigation and writes
    nothing, and a click at any node writes nothing. *)
Theorem nothing_intercepted_before_pass (d : Element)
  (steps : list HostStep) (f n : NodeRef) :
  let w := run steps (fresh d) in
  passes w = 0 ->
  In f (query "form" d) ->
  performed (act (Submit f) w) = performed w ++ [Navigate f] /\
  emitted w (act (Submit f) w) = [] /\
  emitted w (act (Click n) w) = [].
Proof.
  cbn zeta; intros P _; destruct (run_from_fresh d steps) as (I & Ht).
  rewrite P in I; set (w := run steps (fresh d)) in *.
  destruct (hits_Inv d _ 0 w f I) as [Hs _].
  destruct (hits_Inv d _ 0 w n I) as [_ Hc].
  rewrite called_nodes_zero in Hs, Hc; split; [|split].
  - rewrite act_submit by apply I; cbn; rewrite Hs; reflexivity.
  - apply emitted_app; rewrite act_submit by apply I; cbn.
    rewrite Ht, Hs; reflexivity.
  - apply emitted_app; rewrite act_click by apply I; cbn.
    rewrite Ht, Hc; reflexivity.
Qed.

(** X6 on the login page: the form is submitted while the page is still
    being parsed. *)
Lemma nothing_intercepted_before_pass_witness :
  passes (run [LoadScript] (fresh login_page)) = 0 /\
  In [0; 0] (query "form" login_page) /\
  performed (act (Submit [0; 0]) (run [LoadScript] (fresh login_page))) =
  performed (run [LoadScript] (fresh login_page)) ++ [Navigate [0; 0]].
Proof.
  assert (H : passes (run [LoadScript] (fresh login_page)) = 0)
    by reflexivity.
  assert (Hf : In [0; 0] (query "form" login_page))
    by (vm_compute; left; reflexivity).
  split; [exact H|]; split; [exact Hf|].
  exact (proj1
    (nothing_intercepted_before_pass login_page [LoadScript] [0; 0] [0]
       H Hf)).
Defined.

Lemma tally_no_scripts (steps : list HostStep) :
  scripts steps = 0 -> forall m, tally_from (0, m) steps = (0, m).
Proof.
  unfold tally_from, scripts; induction steps as [|s steps IH]; intros H m;
    [reflexivity|].
  destruct s; cbn [fold_left tally_step fst snd filter is_load_script] in *;
    try (apply IH, H); [discriminate H|].
  rewrite Nat.add_0_r; apply IH, H.
Qed.

(** X7.  The script does not look at the document's ready state: evaluated
    only after the document-ready event has been fired, its listener waits
    on the document for an event that does not come again, the pass never
    runs, and no form and no marked control is ever bound. *)
Theorem late_script_never_binds (d : Element) (pre post : list HostStep)
  (a : NodeRef) :
  scripts pre = 0 ->
  ~ In DocumentReady post ->
  let w := run post (step DocumentReady (run pre (fresh d))) in
  count Document "DOMContentLoaded" w = scripts post /\
  passes w = 0 /\
  bound "submit" a w = 0 /\
  bound "click" a w = 0.
Proof.
  intros Hs Hpost; cbn zeta.
  destruct (run_spec d pre 0 0 (fresh d) (Inv_fresh d))
    as (I0 & _ & _ & _ & P0 & _).
  cbn zeta in *; rewrite (tally_no_scripts pre Hs 0) in I0, P0.
  cbn [fst snd] in I0, P0; change (passes (fresh d)) with 0 in P0.
  set (w0 := run pre (fresh d)) in *.
  destruct (step_spec d 0 0 DocumentReady w0 I0) as (I1 & _ & _ & _ & P1 & _).
  cbn zeta in *; cbn [tally_step fst snd Nat.add] in I1, P1.
  set (w1 := step DocumentReady w0) in *.
  destruct (run_spec d post 0 0 w1 I1) as (I2 & _ & _ & _ & P2 & _).
  cbn zeta in *; rewrite (tally_before_ready post Hpost) in I2, P2.
  cbn [fst snd Nat.add] in I2, P2.
  destruct I2 as [_ _ Ir Is Ic]; unfold bound.
  rewrite Ir, Is, Ic; split; [reflexivity|]; repeat split; lia.
Qed.

(** X7 on the login page: the script arrives after the page is ready. *)
Lemma late_script_never_binds_witness :
  scripts [WindowLoad] = 0 /\
  bound "submit" [0; 0]
    (run [LoadScript; User (Click [0])]
       (step DocumentReady (run [WindowLoad] (fresh login_page)))) = 0.
Proof.
  split; [reflexivity|].
  refine (proj1 (proj2 (proj2
    (late_script_never_binds login_page [WindowLoad]
       [LoadScript; User (Click [0])] [0; 0] eq_refl _)))).
  cbn; intuition discriminate.
Defined.

(** ** What the pass leaves alone *)

Lemma bindings_length (ty : string) (rs : list NodeRef) :
  forall n, List.length (bindings ty n rs) = List.length rs.
Proof.
  induction rs as [|r rs IH]; intros n; cbn; [reflexivity|].
  rewrite IH; reflexivity.
Qed.

(** X9.  Run at any moment of a page's life, the registration pass returns
    normally and only adds: the listeners and function objects that were
    there stay, in their order, in front of one new listener and one new
    function object per form and per marked control; the document, the
    console, the default actions performed, the errors reported and the
    surroundings are as before. *)
Theorem pass_only_adds (d : Element) (steps : list HostStep) :
  let w := run steps (fresh d) in
  let w' := registration_pass w in
  let added :=
    List.length (query "form" d) + List.length (query ".btn" d) in
  (forall e, snd (ready_listener (mkCtx w e)) = Normal tt) /\
  firstn (List.length (listeners w)) (listeners w') = listeners w /\
  List.length (listeners w') = List.length (listeners w) + added /\
  firstn (List.length (functions w)) (functions w') = functions w /\
  List.length (functions w') = List.length (functions w) + added /\
  document w' = document w /\ console w' = console w /\
  performed w' = performed w /\ reported w' = reported w /\
  outside w' = outside w.
Proof.
  cbn zeta; destruct (run_from_fresh d steps) as (I & _).
  set (w := run steps (fresh d)) in *.
  rewrite registration_pass_spec by apply I.
  split.
  - intros e; rewrite ready_listener_spec; [reflexivity|].
    apply well_bound_fresh_ids, I.
  - pose proof (inv_doc _ _ _ _ I) as Hd; clearbody w; clear I.
    destruct w as [d' fs ls cs ct pf rp cl en]; cbn in Hd; subst d'.
    unfold registered, extend; cbn.
    rewrite <- !app_assoc, !firstn_app, !firstn_all, !Nat.sub_diag.
    cbn [firstn]; rewrite !app_nil_r, !length_app, !bindings_length,
      !length_map.
    repeat split; lia.
Qed.

(** ** Function objects *)

Lemma bindings_callbacks (ty : string) (rs : list NodeRef) :
  forall n, map callback (bindings ty n rs) = seq n (List.length rs).
Proof.
  induction rs as [|r rs IH]; intros n; cbn; [reflexivity|].
  rewrite IH; reflexivity.
Qed.

Lemma extend_callbacks (ty : string) (mk : NodeRef -> Code) rs (w : World) :
  map callback (listeners w) = seq 0 (List.length (functions w)) ->
  map callback (listeners (extend ty mk rs w)) =
  seq 0 (List.length (functions (extend ty mk rs w))).
Proof.
  intros H; unfold extend; cbn.
  rewrite map_app, length_app, length_map, seq_app, H, bindings_callbacks.
  reflexivity.
Qed.

Lemma step_callbacks (d : Element) (k m : nat) (s : HostStep) (w : World) :
  Inv d k m w ->
  map callback (listeners w) = seq 0 (List.length (functions w)) ->
  map callback (listeners (step s w)) =
  seq 0 (List.length (functions (step s w))).
Proof.
  intros I H; destruct s as [| | |[r|r]]; cbn [step].
  - rewrite main_js_spec by (apply well_bound_fresh_ids, I).
    destruct w as [d' fs ls cs ct pf rp cl en]; cbn in *.
    rewrite map_app, length_app, seq_app, H; reflexivity.
  - rewrite dispatch_ready by apply I.
    generalize (count Document "DOMContentLoaded" w) as n; intros n.
    induction n as [|n IH]; [exact H|].
    change (Nat.iter (S n) (effect ready_fn) ?c)
      with (effect ready_fn (Nat.iter n (effect ready_fn) c)).
    cbn [effect with_world world]; unfold registered.
    apply extend_callbacks, extend_callbacks.
    destruct (world (Nat.iter n _ _)); exact IH.
  - exact H.
  - rewrite act_submit by apply I; exact H.
  - rewrite act_click by apply I; exact H.
Qed.

(** X10.  At every moment of a page's life each function object the script
    has created is the callback of exactly one listener, and the listeners
    stand in the order in which their functions were created.  No two
    listeners ever share a function, so [addEventListener] never meets a
    callback it has seen. *)
Theorem one_function_per_listener (d : Element) (steps : list HostStep) :
  let w := run steps (fresh d) in
  map callback (listeners w) = seq 0 (List.length (functions w)) /\
  NoDup (map callback (listeners w)).
Proof.
  cbn zeta.
  assert (H : forall k m w, Inv d k m w ->
            map callback (listeners w) = seq 0 (List.length (functions w)) ->
            map callback (listeners (run steps w)) =
            seq 0 (List.length (functions (run steps w)))).
  { induction steps as [|s steps IH]; intros k m w I Hw; [exact Hw|].
    change (run (s :: steps) w) with (run steps (step s w)).
    destruct (step_spec d k m s w I) as (I1 & _); cbn zeta in I1.
    apply (IH _ _ _ I1), (step_callbacks d k m s w I Hw). }
  specialize (H 0 0 (fresh d) (Inv_fresh d) eq_refl).
  split; [exact H | rewrite H; apply seq_NoDup].
Qed.

(** ** A console that throws, and clicks *)

(** X11.  When [console.log] throws, a click on a loaded page writes
    nothing, but every marked control on the way from the node clicked to
    the root still has its listener called, one error being reported for
    each, and the click keeps its default action. *)
Theorem throwing_console_spares_clicks (d : Element) (acts : list Action)
  (n : NodeRef) :
  let w := interact acts (break_console (page_load d)) in
  emitted w (act (Click n) w) = [] /\
  reported (act (Click n) w) =
    reported w ++
    repeat "console.log" (List.length (marked_path (query ".btn" d) n)) /\
  called (act (Click n) w) =
    called w ++ map click_fn (marked_path (query ".btn" d) n) /\
  performed (act (Click n) w) = performed w ++ [Activate n].
Proof.
  cbn zeta; destruct (page_load_frame d) as (I0 & _).
  destruct (Inv_interact d 1 1 acts _ (Inv_break_console d 1 1 _ I0))
    as [I Ht].
  set (w := interact acts _) in *; cbn in Ht.
  destruct (hits_Inv d 1 1 w n I) as [_ Hh].
  rewrite called_nodes_path in Hh by apply query_NoDup.
  rewrite act_click by apply I; cbn; rewrite Ht, Hh.
  split; [apply emitted_app; reflexivity|].
  repeat split.
Qed.
